(** * Land-ice applications notebook: segment reader, consistency scorer,
      cross-track slope corrector

    A shallow embedding of the numeric routines of
    [notebooks/land_ice_applications.ipynb]:

    - [atl06_to_dict], the ATL06 segment reader, and the batch loop that
      fills [D_dict];
    - [min_seg_difference], the segment consistency score;
    - [atc_corr], the across-track slope correction of the repeat-track plot;
    - [plot_segs], the drawing of the segments, the loops that read both
      beams of a pair into [D_2l] and [D_2r], and the photon classes.

    numpy [float64] values are IEEE 754 binary64 numbers, taken from the
    Standard Library's [SpecFloat] (precision 53, maximal exponent 1024; one
    not-a-number, no payload).  Python dictionaries are [gmap]s with string
    keys, numpy one-dimensional arrays are lists, and a Python exception is
    an explicit error result. *)

From Stdlib Require Import ZArith String Ascii.
From Stdlib Require Import Floats.SpecFloat.
From stdpp Require Import gmap strings list fin_maps.

(** ** Python results: a value or a raised exception *)

Inductive exn :=
  | KeyError (key : string)
  | ValueError
  | TypeError
  | IndexError
  | OSError.

Inductive result (A : Type) :=
  | Ok (a : A)
  | Raise (e : exn).
Arguments Ok {A} a.
Arguments Raise {A} e.

(** Sequencing: the first exception raised ends the computation.  The
    [x ← r; k] notation is stdpp's, for this instance. *)
#[export] Instance result_bind : MBind result := λ A B k r,
  match r with
  | Ok a => k a
  | Raise e => Raise e
  end.

Definition is_ok {A} (r : result A) : bool :=
  match r with Ok _ => true | Raise _ => false end.

(** [D[k]] on a Python dictionary. *)
Definition getitem {V} (D : gmap string V) (k : string) : result V :=
  match D !! k with
  | Some v => Ok v
  | None => Raise (KeyError k)
  end.

(** ** binary64 arithmetic *)

Module F64.

Definition float := spec_float.

Definition prec : Z := 53.
Definition emax : Z := 1024.

Definition nan : float := S754_nan.
Definition zero : float := S754_zero false.

Definition add : float → float → float := SFadd prec emax.
Definition sub : float → float → float := SFsub prec emax.
Definition mul : float → float → float := SFmul prec emax.
Definition div : float → float → float := SFdiv prec emax.
Definition abs : float → float := SFabs.
Definition eqb : float → float → bool := SFeqb.
Definition leb : float → float → bool := SFleb.

(** Conversion of an integer, rounding to nearest even. *)
Definition of_Z (z : Z) : float := binary_normalize prec emax z 0 false.

Definition is_nan (x : float) : bool :=
  match x with S754_nan => true | _ => false end.

Definition is_finite (x : float) : bool :=
  match x with
  | S754_zero _ | S754_finite _ _ _ => true
  | _ => false
  end.

Definition is_zero (x : float) : bool :=
  match x with S754_zero _ => true | _ => false end.

(** [np.minimum]: the first operand when it is not-a-number or when it is
    less than or equal to the second, the second operand otherwise.  A
    not-a-number in either position is returned. *)
Definition minimum (a b : float) : float :=
  if is_nan a then a else if leb a b then a else b.

(** Neither less than zero nor not-a-number. *)
Definition nonneg (x : float) : bool := leb zero x.

End F64.

Abbreviation float := F64.float.

(** ** One-dimensional numpy arrays *)

Section Arrays.
Context {A : Type}.

(** Shape rule of an elementwise binary operation: equal lengths, or one
    operand of length one that is stretched; anything else does not
    broadcast. *)
Definition broadcast2 (f : A → A → A) (xs ys : list A) : result (list A) :=
  if decide (length xs = length ys) then Ok (zip_with f xs ys)
  else match xs, ys with
       | [x], _ => Ok (f x <$> ys)
       | _, [y] => Ok ((λ x, f x y) <$> xs)
       | _, _ => Raise ValueError
       end.

(** The value assigned to a slice of [m] cells: of that length, or a single
    element that fills the slice. *)
Definition fit (m : nat) (v : list A) : result (list A) :=
  if decide (length v = m) then Ok v
  else match v with
       | [x] => Ok (replicate m x)
       | _ => Raise ValueError
       end.

(** [a[1:]] and [a[:-1]]. *)
Definition tail_from1 (a : list A) : list A := drop 1 a.
Definition but_last (a : list A) : list A := take (length a - 1) a.

(** [a[1:] = v] and [a[:-1] = v]. *)
Definition set_tail_from1 (a v : list A) : result (list A) :=
  v' ← fit (length (tail_from1 a)) v; Ok (take 1 a ++ v').
Definition set_but_last (a v : list A) : result (list A) :=
  v' ← fit (length (but_last a)) v; Ok (v' ++ drop (length a - 1) a).

(** Boolean-mask indexing [a[good]]; the mask must have the array's
    length. *)
Fixpoint select (a : list A) (good : list bool) : list A :=
  match a, good with
  | x :: a', b :: good' => if b then x :: select a' good' else select a' good'
  | _, _ => []
  end.

Definition mask_index (a : list A) (good : list bool) : result (list A) :=
  if decide (length good = length a) then Ok (select a good)
  else Raise IndexError.

End Arrays.

Definition np_add : list float → list float → result (list float) := broadcast2 F64.add.
Definition np_sub : list float → list float → result (list float) := broadcast2 F64.sub.
Definition np_mul : list float → list float → result (list float) := broadcast2 F64.mul.
Definition np_minimum : list float → list float → result (list float) :=
  broadcast2 F64.minimum.
Definition np_abs (a : list float) : list float := F64.abs <$> a.

(** [a * 20] with the Python integer 20. *)
Definition f20 : float := Eval vm_compute in F64.of_Z 20.
Definition times20 (a : list float) : list float := (λ x, F64.mul x f20) <$> a.

(** ** The segment consistency score *)

(** A granule as the scorer and the corrector see it: a dictionary of float64
    columns, as [atl06_to_dict] returns them for the fields that carry a
    fill value. *)
Abbreviation table := (gmap string (list float)).

(** [min_seg_difference(D6)], statement by statement.  [h_ep] is the 2 x n
    array of endpoint heights, kept as its two rows. *)
Definition min_seg_difference (D6 : table) : result (list float) :=
  (* h_ep=np.zeros([2, D6['h_li'].size])+np.NaN *)
  h ← getitem D6 "h_li";
  let n := length h in
  let h_ep0 := replicate n (F64.add F64.zero F64.nan) in
  let h_ep1 := replicate n (F64.add F64.zero F64.nan) in
  (* h_ep[0, :]=D6['h_li']-D6['dh_fit_dx']*20 *)
  s ← getitem D6 "dh_fit_dx";
  v ← np_sub h (times20 s);
  h_ep0 ← fit (length h_ep0) v;
  (* h_ep[1, :]=D6['h_li']+D6['dh_fit_dx']*20 *)
  v ← np_add h (times20 s);
  h_ep1 ← fit (length h_ep1) v;
  (* delta_h_seg=np.zeros_like(D6['h_li']) *)
  let delta_h_seg := replicate n F64.zero in
  (* delta_h_seg[1:]=np.abs(D6['h_li'][1:]-h_ep[1, :-1]) *)
  v ← np_sub (tail_from1 h) (but_last h_ep1);
  delta_h_seg ← set_tail_from1 delta_h_seg (np_abs v);
  (* delta_h_seg[:-1]=np.minimum(delta_h_seg[:-1], np.abs(D6['h_li'][:-1]-h_ep[0, 1:])) *)
  v ← np_sub (but_last h) (tail_from1 h_ep0);
  v ← np_minimum (but_last delta_h_seg) (np_abs v);
  delta_h_seg ← set_but_last delta_h_seg v;
  Ok delta_h_seg.

(** ** The across-track slope correction

    Of the loop that draws the repeat-track plot, the statements that
    compute what is drawn for one beam of one file. *)

(** [good=Dl['atl06_quality_summary']==0] *)
Definition good_mask (Dl : table) : result (list bool) :=
  q ← getitem Dl "atl06_quality_summary";
  Ok (map (λ x, F64.eqb x F64.zero) q).

(** [atc_corr=Dl['y_atc']*Dl['dh_fit_dy']] *)
Definition atc_corr (Dl : table) : result (list float) :=
  y ← getitem Dl "y_atc";
  dy ← getitem Dl "dh_fit_dy";
  np_mul y dy.

(** The heights drawn on the lower axes, [Dl['h_li'][good]-atc_corr[good]]. *)
Definition corrected_elevation (Dl : table) : result (list float) :=
  good ← good_mask Dl;
  corr ← atc_corr Dl;
  h ← getitem Dl "h_li";
  hg ← mask_index h good;
  cg ← mask_index corr good;
  np_sub hg cg.

(** The correction of one segment: raw elevation minus across-track offset
    times across-track slope. *)
Definition corrected1 (h y dy : float) : float := F64.sub h (F64.mul y dy).

(** ** HDF5 files as the reader sees them *)

(** A dataset holds integers or floating-point numbers.  Floating-point data
    are held by value: a float32 dataset is its (exact) binary64 image. *)
Inductive ndarray :=
  | IntArr (zs : list Z)
  | FloatArr (xs : list float).

Inductive scalar :=
  | IntVal (z : Z)
  | FloatVal (x : float).

Record dataset := {
  ds_data : ndarray;
  ds_attrs : gmap string scalar
}.

(** An open file maps the name of a dataset to the dataset, [h5f[ds_name]];
    the file system maps a file name to the file. *)
Abbreviation h5file := (gmap string dataset).

(** [slice(start, stop, step)] with a positive step. *)
Record slice := {
  start : Z;
  stop : Z;
  step : positive
}.

Definition arr_size (a : ndarray) : nat :=
  match a with
  | IntArr zs => length zs
  | FloatArr xs => length xs
  end.

(** A slice bound on a sequence of [n] elements: a negative bound counts from
    the end, and the result is clipped to [0..n]. *)
Definition bound (n : nat) (i : Z) : nat :=
  let i := if (i <? 0)%Z then (i + Z.of_nat n)%Z else i in
  Z.to_nat (Z.min (Z.max i 0) (Z.of_nat n)).

(** Every [k]-th element, the first included; [c] counts the elements still
    to skip. *)
Fixpoint stride {A} (k c : nat) (l : list A) : list A :=
  match l with
  | [] => []
  | x :: l' =>
      match c with
      | O => x :: stride k (k - 1) l'
      | S c' => stride k c' l'
      end
  end.

Definition slice_list {A} (sl : slice) (l : list A) : list A :=
  let b := bound (length l) (start sl) in
  let e := bound (length l) (stop sl) in
  stride (Pos.to_nat (step sl)) 0 (take (e - b) (drop b l)).

Definition amap (f : ∀ A, list A → list A) (a : ndarray) : ndarray :=
  match a with
  | IntArr zs => IntArr (f _ zs)
  | FloatArr xs => FloatArr (f _ xs)
  end.

(** [h5f[ds_name][index]] when an index is given, [h5f[ds_name]] otherwise. *)
Definition read_data (index : option slice) (a : ndarray) : ndarray :=
  match index with
  | Some sl => amap (λ A, slice_list sl) a
  | None => a
  end.

(** [a == fill], elementwise; an integer meets a float as a float. *)
Definition eq_fill (a : ndarray) (fill : scalar) : list bool :=
  match a, fill with
  | IntArr zs, IntVal f => map (λ z, (z =? f)%Z) zs
  | IntArr zs, FloatVal f => map (λ z, F64.eqb (F64.of_Z z) f) zs
  | FloatArr xs, IntVal f => map (λ x, F64.eqb x (F64.of_Z f)) xs
  | FloatArr xs, FloatVal f => map (λ x, F64.eqb x f) xs
  end.

(** [a.astype(float)] *)
Definition astype_float (a : ndarray) : list float :=
  match a with
  | IntArr zs => map F64.of_Z zs
  | FloatArr xs => xs
  end.

(** [a[bad_vals] = np.NaN] for a mask of the array's length. *)
Definition set_nan (a : list float) (bad_vals : list bool) : list float :=
  zip_with (λ x (b : bool), if b then F64.nan else x) a bad_vals.

(** ** The file name pattern

    [ATL06_(?P<date>\d+)_(?P<rgt>\d\d\d\d)(?P<cycle>\d\d)(?P<region>\d\d)_(?P<release>\d\d\d)_(?P<version>\d\d).h5]
    File names are ASCII strings. *)

Definition is_digit (c : ascii) : bool :=
  (48 <=? nat_of_ascii c)%nat && (nat_of_ascii c <=? 57)%nat.

(** A literal prefix. *)
Fixpoint expect (lit s : string) : option string :=
  match lit, s with
  | EmptyString, _ => Some s
  | String a lit', String b s' => if Ascii.eqb a b then expect lit' s' else None
  | String _ _, EmptyString => None
  end.

(** Exactly [n] digits: the digits and the rest. *)
Fixpoint digits (n : nat) (s : string) : option (string * string) :=
  match n, s with
  | O, _ => Some (EmptyString, s)
  | S n', String c s' =>
      if is_digit c then
        match digits n' s' with
        | Some (d, r) => Some (String c d, r)
        | None => None
        end
      else None
  | S _, EmptyString => None
  end.

(** What follows the longest run of digits. *)
Fixpoint skip_digits (s : string) : string :=
  match s with
  | String c s' => if is_digit c then skip_digits s' else s
  | EmptyString => s
  end.

(** [\d+]: one digit at least.  The pattern continues with [_], which is no
    digit, so only the longest run can be followed by a match. *)
Definition digits1 (s : string) : option string :=
  match s with
  | String c s' => if is_digit c then Some (skip_digits s') else None
  | EmptyString => None
  end.

(** [.]: any character but a newline. *)
Definition any_char (s : string) : option string :=
  match s with
  | String c s' => if Ascii.eqb c "010"%char then None else Some s'
  | EmptyString => None
  end.

(** The groups the reader uses. *)
Record re_match := {
  rgt : string;
  cycle : string
}.

(** A match of the whole pattern at the head of [s]. *)
Definition match_here (s : string) : option re_match :=
  s ← expect "ATL06_" s;
  s ← digits1 s;
  s ← expect "_" s;
  '(g_rgt, s) ← digits 4 s;
  '(g_cycle, s) ← digits 2 s;
  '(_, s) ← digits 2 s;
  s ← expect "_" s;
  '(_, s) ← digits 3 s;
  s ← expect "_" s;
  '(_, s) ← digits 2 s;
  s ← any_char s;
  _ ← expect "h5" s;
  Some {| rgt := g_rgt; cycle := g_cycle |}.

(** [file_re.search(filename)]: the leftmost match. *)
Fixpoint file_re_search (filename : string) : option re_match :=
  match match_here filename with
  | Some m => Some m
  | None =>
      match filename with
      | String _ rest => file_re_search rest
      | EmptyString => None
      end
  end.

(** [int(s)] on a string of decimal digits. *)
Fixpoint int_acc (acc : Z) (s : string) : Z :=
  match s with
  | String c s' => int_acc (10 * acc + Z.of_nat (nat_of_ascii c - 48))%Z s'
  | EmptyString => acc
  end.
Definition int (s : string) : Z := int_acc 0 s.

(** ** The segment reader *)

(** What the reader cannot do itself: opening a file ([h5py.File]) and
    projecting longitude and latitude.  Opening fails on a file that is not
    there.  [pyproj.proj.Proj(epsg)] builds the projection of a code, or
    raises; the projection applied to the two arrays returns the two
    coordinate arrays, or raises. *)
Definition projection : Type :=
  ndarray → ndarray → result (list float * list float).

Record env := {
  files : gmap string h5file;
  Proj : Z → result projection
}.

Definition h5py_File (E : env) (filename : string) : result h5file :=
  match files E !! filename with
  | Some h5f => Ok h5f
  | None => Raise OSError
  end.

(** The entries of the dictionary the reader returns. *)
Inductive pyval :=
  | VArr (a : ndarray)
  | VInt (z : Z)
  | VStr (s : string).

(** [field_dict]: group name (or [None]) and the datasets of the group, in
    the order of the dictionary. *)
Abbreviation fields := (list (option string * list string)).

Definition default_field_dict : fields :=
  [ (None, ["latitude"; "longitude"; "h_li"; "atl06_quality_summary"]);
    (Some "ground_track", ["x_atc"; "y_atc"]);
    (Some "fit_statistics", ["dh_fit_dx"; "dh_fit_dy"]) ].

Definition ds_name (beam : string) (key : option string) (ds : string) : string :=
  match key with
  | Some key => beam +:+ "/land_ice_segments/" +:+ key +:+ "/" +:+ ds
  | None => beam +:+ "/land_ice_segments/" +:+ ds
  end.

(** The fill step, taken when the dataset has a [_FillValue] attribute. *)
Definition fill_to_nan (a : ndarray) (fill : scalar) : ndarray :=
  let bad_vals := eq_fill a fill in
  FloatArr (set_nan (astype_float a) bad_vals).

(** The body of the inner loop, for one dataset [ds] of group [key]. *)
Definition read_field (h5f : h5file) (beam : string) (index : option slice)
    (key : option string) (D : gmap string ndarray) (ds : string)
    : result (gmap string ndarray) :=
  let name := ds_name beam key ds in
  d ← getitem h5f name;
  let a := read_data index (ds_data d) in
  match ds_attrs d !! "_FillValue" with
  | Some fill => Ok (<[ds := fill_to_nan a fill]> D)
  | None => Ok (<[ds := a]> D)
  end.

(** [for ds in field_dict[key]] *)
Fixpoint read_group (h5f : h5file) (beam : string) (index : option slice)
    (key : option string) (dss : list string) (D : gmap string ndarray)
    : result (gmap string ndarray) :=
  match dss with
  | [] => Ok D
  | ds :: dss' =>
      D ← read_field h5f beam index key D ds;
      read_group h5f beam index key dss' D
  end.

(** [for key in field_dict] *)
Fixpoint read_fields (h5f : h5file) (beam : string) (index : option slice)
    (field_dict : fields) (D : gmap string ndarray)
    : result (gmap string ndarray) :=
  match field_dict with
  | [] => Ok D
  | (key, dss) :: field_dict' =>
      D ← read_group h5f beam index key dss D;
      read_fields h5f beam index field_dict' D
  end.

(** [v.reshape(a.shape)]: the sizes must agree. *)
Definition reshape_like (v : list float) (a : ndarray) : result ndarray :=
  if decide (length v = arr_size a) then Ok (FloatArr v) else Raise ValueError.

(** The projection step, taken when [epsg] is given. *)
Definition project (E : env) (epsg : Z) (D : gmap string ndarray)
    : result (gmap string ndarray) :=
  p ← Proj E epsg;
  lon ← getitem D "longitude";
  lat ← getitem D "latitude";
  xy ← p lon lat;
  lat ← getitem D "latitude";
  x ← reshape_like xy.1 lat;
  let D := <["x" := x]> D in
  lat ← getitem D "latitude";
  y ← reshape_like xy.2 lat;
  Ok (<["y" := y]> D).

Definition atl06_to_dict (E : env) (filename beam : string)
    (field_dict : option fields) (index : option slice) (epsg : option Z)
    : result (gmap string pyval) :=
  let field_dict := default default_field_dict field_dict in
  D ← (h5f ← h5py_File E filename;
       read_fields h5f beam index field_dict ∅);
  D ← match epsg with
      | Some epsg => project E epsg D
      | None => Ok D
      end;
  match file_re_search filename with
  | None => Raise TypeError
  | Some temp =>
      let D : gmap string pyval := VArr <$> D in
      let D := <["rgt" := VInt (int (rgt temp))]> D in
      let D := <["cycle" := VInt (int (cycle temp))]> D in
      let D := <["beam" := VStr beam]> D in
      Ok D
  end.

(** ** Reading every file of the directory *)

(** The dictionary [D_dict] and the lines printed for the files that failed
    (file name and exception), latest first. *)
Record batch := {
  D_dict : gmap string (gmap string pyval);
  printed : list (string * exn)
}.

Definition slice_0_m1_25 : slice := {| start := 0; stop := -1; step := 25 |}.

(** The loop over [ATL06_files].  A [KeyError] is printed and the loop goes
    on; any other exception leaves the loop, with [D_dict] as it is then. *)
Fixpoint read_files (E : env) (ATL06_files : list string) (st : batch)
    : batch * option exn :=
  match ATL06_files with
  | [] => (st, None)
  | file :: rest =>
      match atl06_to_dict E file "/gt2l" None (Some slice_0_m1_25) (Some 3031%Z) with
      | Ok D =>
          read_files E rest
            {| D_dict := <[file := D]> (D_dict st); printed := printed st |}
      | Raise (KeyError k) =>
          read_files E rest
            {| D_dict := D_dict st; printed := (file, KeyError k) :: printed st |}
      | Raise e => (st, Some e)
      end
  end.

Definition read_all (E : env) (ATL06_files : list string) : batch * option exn :=
  read_files E ATL06_files {| D_dict := ∅; printed := [] |}.

(** ** The score, array by array

    The arrays [min_seg_difference] goes through on columns [h] and [s] of
    one length: the two rows of [h_ep], [delta_h_seg] after the first
    assignment, and [delta_h_seg] as returned. *)

Definition h_ep_0 (h s : list float) : list float := zip_with F64.sub h (times20 s).
Definition h_ep_1 (h s : list float) : list float := zip_with F64.add h (times20 s).

Definition delta_first (h s : list float) : list float :=
  take 1 (replicate (length h) F64.zero)
  ++ np_abs (zip_with F64.sub (tail_from1 h) (but_last (h_ep_1 h s))).

Definition delta_second (h s : list float) : list float :=
  zip_with F64.minimum (but_last (delta_first h s))
    (np_abs (zip_with F64.sub (but_last h) (tail_from1 (h_ep_0 h s))))
  ++ drop (length (delta_first h s) - 1) (delta_first h s).

(** The two comparisons of a segment of elevation [hi]: with the forward
    endpoint of its predecessor (elevation [hp], slope [sp]) and with the
    backward endpoint of its successor (elevation [hn], slope [sn]). *)
Definition from_prev (hi hp sp : float) : float :=
  F64.abs (F64.sub hi (F64.add hp (F64.mul sp f20))).
Definition from_next (hi hn sn : float) : float :=
  F64.abs (F64.sub hi (F64.sub hn (F64.mul sn f20))).

(** The score of an interior segment as the specification words it: the
    segment's own elevation [hi], extrapolated with its own slope [si] over a
    distance [d], against the predecessor's elevation [hp] and against the
    successor's elevation [hn]. *)
Definition spec_backward (d hi si hp : float) : float :=
  F64.abs (F64.sub (F64.sub hi (F64.mul si d)) hp).
Definition spec_forward (d hi si hn : float) : float :=
  F64.abs (F64.sub (F64.add hi (F64.mul si d)) hn).
Definition spec_score (d : float) (h s : list float) (i : nat) : option float :=
  match i with
  | O => None
  | S p =>
      hp ← h !! p; hi ← h !! i; hn ← h !! S i; si ← s !! i;
      Some (F64.minimum (spec_backward d hi si hp) (spec_forward d hi si hn))
  end.

(** The corrected heights of all segments, before the mask is applied. *)
Definition corrected_column (h y dy : list float) : list float :=
  zip_with F64.sub h (zip_with F64.mul y dy).

(** ** Sample granules *)

Definition fZ (z : Z) : float := F64.of_Z z.

(** A level segment between two neighbours that slope towards it. *)
Definition granule_slopes : table :=
  {[ "h_li" := [fZ 0; fZ 20; fZ 40];
     "dh_fit_dx" := [fZ 1; fZ 0; fZ 1];
     "x_atc" := [fZ 0; fZ 20; fZ 40] ]}.

(** Two level segments a hundred apart. *)
Definition granule_step : table :=
  {[ "h_li" := [fZ 0; fZ 100];
     "dh_fit_dx" := [fZ 0; fZ 0];
     "x_atc" := [fZ 0; fZ 20] ]}.

(** A flat granule whose middle slope is missing. *)
Definition granule_no_slope : table :=
  {[ "h_li" := [fZ 0; fZ 0; fZ 0];
     "dh_fit_dx" := [fZ 0; F64.nan; fZ 0];
     "x_atc" := [fZ 0; fZ 20; fZ 40] ]}.

(** The same elevations and slopes as [granule_slopes], other distances. *)
Definition granule_slopes_far : table :=
  {[ "h_li" := [fZ 0; fZ 20; fZ 40];
     "dh_fit_dx" := [fZ 1; fZ 0; fZ 1];
     "x_atc" := [fZ 7; fZ 1000; fZ 5] ]}.

(** A single segment. *)
Definition granule_single : table :=
  {[ "h_li" := [fZ 100]; "dh_fit_dx" := [fZ 1]; "x_atc" := [fZ 0] ]}.

(** The nearest binary64 number to the decimal [n/d]. *)
Definition dec (n d : Z) : float := F64.div (fZ n) (fZ d).

(** Distances 0, 20, 40, elevations 100.0, 100.2, 100.5 and a slope of 0.01
    throughout. *)
Definition granule_ramp : table :=
  {[ "h_li" := [dec 1000 10; dec 1002 10; dec 1005 10];
     "dh_fit_dx" := [dec 1 100; dec 1 100; dec 1 100];
     "x_atc" := [fZ 0; fZ 20; fZ 40] ]}.

(** One good segment on the reference line, its across-track slope
    missing. *)
Definition granule_on_line : table :=
  {[ "h_li" := [fZ 200];
     "y_atc" := [fZ 0];
     "dh_fit_dy" := [F64.nan];
     "atl06_quality_summary" := [fZ 0] ]}.

(** Three segments: on the line, flagged, and fifty off the line. *)
Definition granule_pair : table :=
  {[ "h_li" := [fZ 200; fZ 150; fZ 200];
     "y_atc" := [fZ 0; fZ 3; fZ 50];
     "dh_fit_dy" := [dec 2 1000; dec 1 1000; dec 2 1000];
     "atl06_quality_summary" := [fZ 0; fZ 1; fZ 0] ]}.

(** Four segments with every column: the second elevation and the third
    along-track slope are missing, and so is the second across-track
    slope. *)
Definition granule_gaps : table :=
  {[ "h_li" := [fZ 0; F64.nan; fZ 0; fZ 0];
     "dh_fit_dx" := [fZ 0; fZ 0; F64.nan; fZ 0];
     "y_atc" := [fZ 1; fZ 1; fZ 1; fZ 1];
     "dh_fit_dy" := [fZ 0; F64.nan; fZ 0; fZ 0];
     "atl06_quality_summary" := [fZ 0; fZ 0; fZ 0; fZ 0] ]}.

(** ** What the reader stores, and under which name *)

(** The array the loop body stores for a dataset. *)
Definition stored (index : option slice) (d : dataset) : ndarray :=
  let a := read_data index (ds_data d) in
  match ds_attrs d !! "_FillValue" with
  | Some fill => fill_to_nan a fill
  | None => a
  end.

(** The dictionary is keyed by dataset name alone: of the groups that list
    [ds], the last one wins. *)
Fixpoint last_group (field_dict : fields) (ds : string) : option (option string) :=
  match field_dict with
  | [] => None
  | (key, dss) :: field_dict' =>
      match last_group field_dict' ds with
      | Some k => Some k
      | None => if decide (ds ∈ dss) then Some key else None
      end
  end.

(** The integer a binary64 number stands for, when it is one. *)
Definition to_Z (x : float) : option Z :=
  match x with
  | S754_zero _ => Some 0%Z
  | S754_finite sg m e =>
      let v := if (0 <=? e)%Z then Some (Z.pos m * 2 ^ e)%Z
               else if (Z.pos m mod 2 ^ (- e) =? 0)%Z then Some (Z.pos m / 2 ^ (- e))%Z
               else None in
      (if sg then Z.opp else id) <$> v
  | _ => None
  end.

(** The array [out] holds the values of the array [raw]: the same integers,
    the same floating-point numbers, or binary64 numbers that stand for the
    integers of [raw]. *)
Definition same_values (raw out : ndarray) : Prop :=
  match raw, out with
  | IntArr zs, IntArr zs' => zs = zs'
  | FloatArr xs, FloatArr xs' => xs = xs'
  | IntArr zs, FloatArr xs => Forall2 (λ z x, to_Z x = Some z) zs xs
  | FloatArr _, IntArr _ => False
  end.

(** ** Sample files *)

(** The largest float32, the fill value of the ATL06 heights. *)
Definition flt_max : float := Eval vm_compute in fZ ((2 ^ 24 - 1) * 2 ^ 104).

Definition with_fill (a : ndarray) (fill : scalar) : dataset :=
  {| ds_data := a; ds_attrs := {[ "_FillValue" := fill ]} |}.
Definition without_fill (a : ndarray) : dataset :=
  {| ds_data := a; ds_attrs := ∅ |}.

Definition photons : dataset :=
  with_fill (IntArr [57; 12; 61]%Z) (IntVal 2147483647).

(** Beam [/gt2l] with three segments: the second height is the fill value,
    the quality flag is an integer dataset without a fill value, and the
    segment identifier and the photon count are integer datasets with
    one. *)
Definition sample_h5 : h5file :=
  {[ "/gt2l/land_ice_segments/latitude" := with_fill (FloatArr [fZ (-75); fZ (-75); fZ (-75)]) (FloatVal flt_max);
     "/gt2l/land_ice_segments/longitude" := with_fill (FloatArr [fZ (-100); fZ (-100); fZ (-100)]) (FloatVal flt_max);
     "/gt2l/land_ice_segments/h_li" := with_fill (FloatArr [fZ 100; flt_max; fZ 102]) (FloatVal flt_max);
     "/gt2l/land_ice_segments/atl06_quality_summary" := without_fill (IntArr [0; 1; 0]%Z);
     "/gt2l/land_ice_segments/segment_id" := with_fill (IntArr [9007199254740993; 2; 3]%Z) (IntVal (-1));
     "/gt2l/land_ice_segments/ground_track/x_atc" := with_fill (FloatArr [fZ 0; fZ 20; fZ 40]) (FloatVal flt_max);
     "/gt2l/land_ice_segments/ground_track/y_atc" := with_fill (FloatArr [fZ 0; fZ 3; fZ 50]) (FloatVal flt_max);
     "/gt2l/land_ice_segments/fit_statistics/dh_fit_dx" := with_fill (FloatArr [fZ 0; fZ 0; fZ 0]) (FloatVal flt_max);
     "/gt2l/land_ice_segments/fit_statistics/dh_fit_dy" := with_fill (FloatArr [fZ 0; flt_max; fZ 0]) (FloatVal flt_max);
     "/gt2l/land_ice_segments/fit_statistics/n_fit_photons" := photons ]}.

(** The same beam without its across-track slope. *)
Definition cloudy_h5 : h5file :=
  delete "/gt2l/land_ice_segments/fit_statistics/dh_fit_dy" sample_h5.

Definition sample_name : string := "PIG_ATL06/ATL06_20181014045341_02350111_003_01.h5".
Definition cloudy_name : string := "PIG_ATL06/ATL06_20181112033329_06770111_003_01.h5".
Definition later_name : string := "PIG_ATL06/ATL06_20190113003735_02350211_003_01.h5".
Definition renamed_name : string := "PIG_ATL06/granule_0235_01.h5".

(** A directory of four files and a projection that returns its arguments. *)
Definition sample_env : env :=
  {| files := {[ sample_name := sample_h5; cloudy_name := cloudy_h5;
                 later_name := sample_h5; renamed_name := sample_h5 ]};
     Proj := λ _, Ok (λ lon lat, Ok (astype_float lon, astype_float lat)) |}.

(** What the sample reads return. *)
Definition read_or_empty {V} (r : result (gmap string V)) : gmap string V :=
  match r with
  | Ok D => D
  | Raise _ => ∅
  end.

Definition sample_D : gmap string pyval :=
  read_or_empty (atl06_to_dict sample_env sample_name "/gt2l" None None None).

Definition sample_ids : gmap string pyval :=
  read_or_empty (atl06_to_dict sample_env sample_name "/gt2l"
                   (Some [(None, ["segment_id"])]) None None).

Definition sample_photons : gmap string pyval :=
  read_or_empty (atl06_to_dict sample_env sample_name "/gt2l"
                   (Some [(Some "fit_statistics", ["n_fit_photons"])]) None None).

Definition sample_fields : gmap string ndarray :=
  read_or_empty (read_fields sample_h5 "/gt2l" None default_field_dict ∅).

(** ** Drawing the segments *)

(** [a - 20] and [a + 20] with the Python integer 20. *)
Definition minus20 (a : list float) : list float := (λ x, F64.sub x f20) <$> a.
Definition plus20 (a : list float) : list float := (λ x, F64.add x f20) <$> a.

(** [a.T.ravel()] for an array [a] of three rows [r0], [r1], [r2] of one
    length: the three entries of the first column, then those of the
    second, and so on. *)
Fixpoint ravel_T3 {A} (r0 r1 r2 : list A) : list A :=
  match r0, r1, r2 with
  | x0 :: r0, x1 :: r1, x2 :: r2 => x0 :: x1 :: x2 :: ravel_T3 r0 r1 r2
  | _, _, _ => []
  end.

(** [plot_segs(D6, ind)]: the two arrays handed to [plt.plot], abscissae
    and heights.  [h_ep] and [x_ep] are 3 x n arrays kept as their rows;
    the third row is never assigned. *)
Definition plot_segs (D6 : table) (ind : option (list bool))
    : result (list float * list float) :=
  (* if ind is None: ind=np.ones_like(D6['h_li'], dtype=bool) *)
  ind ← match ind with
        | Some ind => Ok ind
        | None => h ← getitem D6 "h_li"; Ok (replicate (length h) true)
        end;
  (* h_ep=np.zeros([3, D6['h_li'][ind].size])+np.NaN *)
  h ← getitem D6 "h_li";
  hi ← mask_index h ind;
  let n := length hi in
  let h_ep2 := replicate n (F64.add F64.zero F64.nan) in
  (* h_ep[0, :]=D6['h_li'][ind]-D6['dh_fit_dx'][ind]*20 *)
  s ← getitem D6 "dh_fit_dx";
  si ← mask_index s ind;
  v ← np_sub hi (times20 si);
  h_ep0 ← fit n v;
  (* h_ep[1, :]=D6['h_li'][ind]+D6['dh_fit_dx'][ind]*20 *)
  v ← np_add hi (times20 si);
  h_ep1 ← fit n v;
  (* x_ep=np.zeros([3,D6['h_li'][ind].size])+np.NaN *)
  let x_ep2 := replicate n (F64.add F64.zero F64.nan) in
  (* x_ep[0, :]=D6['x_atc'][ind]-20 *)
  x ← getitem D6 "x_atc";
  xi ← mask_index x ind;
  x_ep0 ← fit n (minus20 xi);
  (* x_ep[1, :]=D6['x_atc'][ind]+20 *)
  x_ep1 ← fit n (plus20 xi);
  (* plt.plot(x_ep.T.ravel(), h_ep.T.ravel(), **kwargs) *)
  Ok (ravel_T3 x_ep0 x_ep1 x_ep2, ravel_T3 h_ep0 h_ep1 h_ep2).

(** The abscissae of the corrected heights, [Dl['x_atc'][good]]. *)
Definition plotted_x (Dl : table) : result (list float) :=
  good ← good_mask Dl;
  x ← getitem Dl "x_atc";
  mask_index x good.

(** ** Photon classes

    [conf] is the column [D3['heights']['signal_conf_ph'][:,3]], the
    land-ice confidence of every photon, an integer. *)

(** [TEP=(conf <-1)] *)
Definition TEP (conf : list Z) : list bool := map (λ c, (c <? -1)%Z) conf.
(** [BG=(conf ==0) | (conf ==1)] *)
Definition BG (conf : list Z) : list bool :=
  map (λ c, (c =? 0)%Z || (c =? 1)%Z) conf.
(** [LMH=conf >= 2] *)
Definition LMH (conf : list Z) : list bool := map (λ c, (c >=? 2)%Z) conf.

(** ** Reading both beams of a pair *)

(** The dictionaries [D_2l] and [D_2r] and the lines printed (file name and
    exception), latest first. *)
Record pairs := {
  D_2l : gmap string (gmap string pyval);
  D_2r : gmap string (gmap string pyval);
  printed_pairs : list (string * exn)
}.

(** [atl06_to_dict(filename,'/gt2l', index=None, epsg=3031)] and the same
    for [/gt2r]. *)
Definition read_left (E : env) (filename : string) : result (gmap string pyval) :=
  atl06_to_dict E filename "/gt2l" None None (Some 3031%Z).
Definition read_right (E : env) (filename : string) : result (gmap string pyval) :=
  atl06_to_dict E filename "/gt2r" None None (Some 3031%Z).

(** The body of the inner loop: the left beam, then the right beam; any
    exception is printed and the loop goes on. *)
Definition read_pair (E : env) (st : pairs) (filename : string) : pairs :=
  match read_left E filename with
  | Raise e =>
      {| D_2l := D_2l st; D_2r := D_2r st;
         printed_pairs := (filename, e) :: printed_pairs st |}
  | Ok Dl =>
      match read_right E filename with
      | Raise e =>
          {| D_2l := <[filename := Dl]> (D_2l st); D_2r := D_2r st;
             printed_pairs := (filename, e) :: printed_pairs st |}
      | Ok Dr =>
          {| D_2l := <[filename := Dl]> (D_2l st);
             D_2r := <[filename := Dr]> (D_2r st);
             printed_pairs := printed_pairs st |}
      end
  end.

(** The two loops; [listing] holds, for every cycle of the outer loop, the
    file names that [glob.glob] returns. *)
Definition read_pairs (E : env) (listing : list (list string)) : pairs :=
  foldl (λ st filenames, foldl (read_pair E) st filenames)
    {| D_2l := ∅; D_2r := ∅; printed_pairs := [] |} listing.

(** ** File names *)

Definition all_digits (s : string) : bool :=
  forallb is_digit (list_ascii_of_string s).

(** The name of an ATL06 granule, from the text of its fields; [sep] stands
    before the extension. *)
Definition atl06_name (date g_rgt g_cycle region release version : string)
    (sep : ascii) : string :=
  "ATL06_" +:+ date +:+ "_" +:+ g_rgt +:+ g_cycle +:+ region +:+ "_"
  +:+ release +:+ "_" +:+ version +:+ String sep "h5".

(** [lit] stands somewhere in [s]. *)
Fixpoint occurs (lit s : string) : bool :=
  match expect lit s with
  | Some _ => true
  | None =>
      match s with
      | String _ s' => occurs lit s'
      | EmptyString => false
      end
  end.

(** [ds] is one of the datasets [field_dict] asks for. *)
Definition requested (field_dict : fields) (ds : string) : Prop :=
  ∃ key dss, (key, dss) ∈ field_dict ∧ ds ∈ dss.

(** The read of one file in the loop over [ATL06_files]. *)
Definition batch_read (E : env) (file : string) : result (gmap string pyval) :=
  atl06_to_dict E file "/gt2l" None (Some slice_0_m1_25) (Some 3031%Z).

(** ** Further samples *)

(** Three elevations and a single slope. *)
Definition granule_one_slope : table :=
  {[ "h_li" := [fZ 0; fZ 20; fZ 40]; "dh_fit_dx" := [fZ 1] ]}.

(** Two granules of four segments that agree on the first two elevations
    and on the second slope. *)
Definition granule_four : table :=
  {[ "h_li" := [fZ 0; fZ 20; fZ 40; fZ 60];
     "dh_fit_dx" := [fZ 1; fZ 0; fZ 1; fZ 2] ]}.
Definition granule_four_far : table :=
  {[ "h_li" := [fZ 0; fZ 20; fZ 75; fZ 90];
     "dh_fit_dx" := [fZ 3; fZ 0; fZ 7; fZ 9] ]}.

(** [granule_pair] with its along-track distances. *)
Definition granule_pair_x : table :=
  <["x_atc" := [fZ 0; fZ 20; fZ 40]]> granule_pair.

(** The left beam of the sample file, projected. *)
Definition sample_projected : gmap string pyval :=
  read_or_empty (read_left sample_env sample_name).

(** The sample read of one file in the loop. *)
Definition sample_batch : gmap string pyval :=
  read_or_empty (batch_read sample_env sample_name).

(** * Properties *)

(** Closed goals are settled by evaluation. *)
Ltac by_compute := vm_compute; first [exact eq_refl | done].

(** ** Results *)

Lemma bind_Ok {A B} (r : result A) (k : A → result B) a :
  r = Ok a → (r ≫= k) = k a.
Proof. by intros ->. Qed.

Lemma bind_Ok_inv {A B} (r : result A) (k : A → result B) b :
  (r ≫= k) = Ok b → ∃ a, r = Ok a ∧ k a = Ok b.
Proof. destruct r as [a|e]; [eauto | discriminate]. Qed.

Lemma getitem_Some {V} (D : gmap string V) k v : D !! k = Some v → getitem D k = Ok v.
Proof. unfold getitem. by intros ->. Qed.

Lemma getitem_None {V} (D : gmap string V) k : D !! k = None → getitem D k = Raise (KeyError k).
Proof. unfold getitem. by intros ->. Qed.

(** ** Arrays *)

Section ArrayFacts.
Context {A : Type}.
Implicit Types (f : A → A → A) (xs ys v a : list A).

Lemma broadcast2_same f xs ys :
  length xs = length ys → broadcast2 f xs ys = Ok (zip_with f xs ys).
Proof. intros H. unfold broadcast2. by rewrite decide_True. Qed.

Lemma fit_same m v : length v = m → fit m v = Ok v.
Proof. intros H. unfold fit. by rewrite decide_True. Qed.

Lemma length_tail_from1 a : length (tail_from1 a) = (length a - 1)%nat.
Proof. unfold tail_from1. by rewrite length_drop. Qed.

Lemma length_but_last a : length (but_last a) = (length a - 1)%nat.
Proof. unfold but_last. rewrite length_take. lia. Qed.

Lemma lookup_tail_from1 a i : tail_from1 a !! i = a !! S i.
Proof. unfold tail_from1. by rewrite lookup_drop. Qed.

Lemma lookup_but_last a i : (S i < length a)%nat → but_last a !! i = a !! i.
Proof. intros H. unfold but_last. rewrite lookup_take_lt; [done | lia]. Qed.

Lemma mask_index_same a good :
  length good = length a → mask_index a good = Ok (select a good).
Proof. intros H. unfold mask_index. by rewrite decide_True. Qed.

Lemma select_zip_with f xs ys good :
  zip_with f (select xs good) (select ys good) = select (zip_with f xs ys) good.
Proof.
  revert ys good. induction xs as [|x xs IH]; intros [|y ys] [|[] good]; simpl;
    try done; try (by rewrite IH); by destruct (select xs good).
Qed.

Lemma length_select2 xs ys good :
  length xs = length ys → length (select xs good) = length (select ys good).
Proof.
  revert ys good. induction xs as [|x xs IH]; intros [|y ys] [|[] good] H; simpl in *;
    try done; try lia; auto.
Qed.

End ArrayFacts.

(** ** The consistency score *)

Section Scorer.
Implicit Types (h s : list float).

Lemma length_times20 s : length (times20 s) = length s.
Proof. unfold times20. by rewrite length_fmap. Qed.

Lemma length_h_ep_0 h s : length s = length h → length (h_ep_0 h s) = length h.
Proof. intros H. unfold h_ep_0. rewrite length_zip_with, length_times20. lia. Qed.

Lemma length_h_ep_1 h s : length s = length h → length (h_ep_1 h s) = length h.
Proof. intros H. unfold h_ep_1. rewrite length_zip_with, length_times20. lia. Qed.

Lemma length_delta_first h s : length s = length h → length (delta_first h s) = length h.
Proof.
  intros H. unfold delta_first, np_abs.
  rewrite length_app, length_take, length_replicate, length_fmap, length_zip_with.
  rewrite length_tail_from1, length_but_last, length_h_ep_1 by done. lia.
Qed.

Lemma length_delta_second h s : length s = length h → length (delta_second h s) = length h.
Proof.
  intros H. unfold delta_second, np_abs.
  rewrite length_app, length_zip_with, length_fmap, length_zip_with, length_drop.
  rewrite !length_but_last, length_tail_from1, length_delta_first, length_h_ep_0 by done.
  lia.
Qed.

(** On columns of one length the function returns [delta_second]. *)
Lemma min_seg_difference_eq (D6 : table) h s :
  D6 !! "h_li" = Some h → D6 !! "dh_fit_dx" = Some s → length s = length h →
  min_seg_difference D6 = Ok (delta_second h s).
Proof.
  intros Hh Hs Hlen. unfold min_seg_difference.
  rewrite (getitem_Some _ _ _ Hh). cbn.
  rewrite (getitem_Some _ _ _ Hs). cbn.
  unfold np_sub, np_add, np_minimum.
  rewrite (broadcast2_same F64.sub h) by (by rewrite length_times20). cbn.
  rewrite fit_same by (rewrite length_replicate; by apply length_h_ep_0). cbn.
  rewrite (broadcast2_same F64.add h) by (by rewrite length_times20). cbn.
  rewrite fit_same by (rewrite length_replicate; by apply length_h_ep_1). cbn.
  fold (h_ep_0 h s) (h_ep_1 h s).
  rewrite (broadcast2_same F64.sub (tail_from1 h))
    by (rewrite length_tail_from1, length_but_last, length_h_ep_1 by done; lia). cbn.
  unfold set_tail_from1.
  rewrite fit_same; cycle 1.
  { unfold np_abs. rewrite length_fmap, length_zip_with, !length_tail_from1,
      length_but_last, length_replicate, length_h_ep_1 by done. lia. }
  cbn. fold (delta_first h s).
  rewrite (broadcast2_same F64.sub (but_last h))
    by (rewrite length_tail_from1, length_but_last, length_h_ep_0 by done; lia). cbn.
  rewrite (broadcast2_same F64.minimum); cycle 1.
  { unfold np_abs. rewrite length_fmap, length_zip_with, !length_but_last,
      length_tail_from1, length_delta_first, length_h_ep_0 by done. lia. }
  cbn. unfold set_but_last.
  rewrite fit_same; [done|].
  unfold np_abs. rewrite length_zip_with, length_fmap, length_zip_with, !length_but_last,
    length_tail_from1, length_delta_first, length_h_ep_0 by done. lia.
Qed.

Lemma lookup_h_ep_0 h s i hi si :
  h !! i = Some hi → s !! i = Some si →
  h_ep_0 h s !! i = Some (F64.sub hi (F64.mul si f20)).
Proof.
  intros Hh Hs. unfold h_ep_0, times20.
  by rewrite lookup_zip_with, list_lookup_fmap, Hh, Hs.
Qed.

Lemma lookup_h_ep_1 h s i hi si :
  h !! i = Some hi → s !! i = Some si →
  h_ep_1 h s !! i = Some (F64.add hi (F64.mul si f20)).
Proof.
  intros Hh Hs. unfold h_ep_1, times20.
  by rewrite lookup_zip_with, list_lookup_fmap, Hh, Hs.
Qed.

(** After the first assignment the first cell still holds the zero of
    [np.zeros_like]. *)
Lemma lookup_delta_first_0 h s hi :
  h !! 0%nat = Some hi → delta_first h s !! 0%nat = Some F64.zero.
Proof.
  intros Hh. unfold delta_first. destruct h as [|x h]; [done|]. done.
Qed.

Lemma lookup_delta_first_S h s i hp hi sp :
  length s = length h →
  h !! i = Some hp → h !! S i = Some hi → s !! i = Some sp →
  delta_first h s !! S i = Some (from_prev hi hp sp).
Proof.
  intros Hlen Hp Hi Hs. apply lookup_lt_Some in Hi as Hlt.
  unfold delta_first, np_abs.
  rewrite lookup_app_r; rewrite length_take, length_replicate; [|lia].
  replace (S i - 1 `min` length h)%nat with i by lia.
  rewrite list_lookup_fmap, lookup_zip_with, lookup_tail_from1, Hi.
  rewrite lookup_but_last by (rewrite length_h_ep_1 by done; lia).
  by rewrite (lookup_h_ep_1 _ _ _ _ _ Hp Hs).
Qed.

(** Every cell but the last takes the minimum with the second comparison. *)
Lemma lookup_delta_second_inner h s i a hi hn sn :
  length s = length h →
  delta_first h s !! i = Some a →
  h !! i = Some hi → h !! S i = Some hn → s !! S i = Some sn →
  delta_second h s !! i = Some (F64.minimum a (from_next hi hn sn)).
Proof.
  intros Hlen Ha Hi Hn Hs. apply lookup_lt_Some in Hn as Hlt.
  unfold delta_second, np_abs.
  rewrite lookup_app_l; cycle 1.
  { rewrite length_zip_with, length_fmap, length_zip_with, !length_but_last,
      length_tail_from1, length_delta_first, length_h_ep_0 by done. lia. }
  rewrite lookup_zip_with.
  rewrite lookup_but_last by (rewrite length_delta_first by done; lia).
  rewrite Ha. cbn.
  rewrite list_lookup_fmap, lookup_zip_with.
  rewrite lookup_but_last by lia. rewrite Hi. cbn.
  rewrite lookup_tail_from1, (lookup_h_ep_0 _ _ _ _ _ Hn Hs). done.
Qed.

(** The last cell keeps what the first assignment wrote. *)
Lemma lookup_delta_second_last h s i :
  length s = length h → length h = S i →
  delta_second h s !! i = delta_first h s !! i.
Proof.
  intros Hlen Hn. unfold delta_second, np_abs.
  rewrite lookup_app_r; cycle 1.
  { rewrite length_zip_with, length_fmap, length_zip_with, !length_but_last,
      length_tail_from1, length_delta_first, length_h_ep_0 by done. lia. }
  rewrite length_zip_with, length_fmap, length_zip_with, !length_but_last,
    length_tail_from1, length_delta_first, length_h_ep_0 by done.
  rewrite lookup_drop. f_equal. lia.
Qed.

End Scorer.

(** ** binary64 facts *)

Section Rounding.

Lemma shr_1_nonneg mrs : (0 ≤ shr_m mrs)%Z → (0 ≤ shr_m (shr_1 mrs))%Z.
Proof.
  destruct mrs as [m r s]. simpl. intros Hm.
  destruct m as [|p|p]; [done| |lia]. destruct p; simpl; lia.
Qed.

Lemma iter_shr_1_nonneg p mrs :
  (0 ≤ shr_m mrs)%Z → (0 ≤ shr_m (SpecFloat.iter_pos shr_1 p mrs))%Z.
Proof.
  revert mrs. induction p as [p IH|p IH|]; intros mrs Hm; simpl;
    auto using shr_1_nonneg.
Qed.

Lemma shr_fexp_nonneg prec emax m e l :
  (0 ≤ m)%Z → (0 ≤ shr_m (shr_fexp prec emax m e l).1)%Z.
Proof.
  intros Hm. unfold shr_fexp, shr.
  assert (0 ≤ shr_m (shr_record_of_loc m l))%Z as Hr.
  { destruct l as [|[]]; simpl; lia. }
  destruct (_ - e)%Z; simpl; auto using iter_shr_1_nonneg.
Qed.

Lemma round_nearest_even_nonneg m l : (0 ≤ m)%Z → (0 ≤ round_nearest_even m l)%Z.
Proof.
  intros Hm. destruct l as [|[]]; simpl; try lia. destruct (Z.even m); lia.
Qed.

(** Rounding a non-negative mantissa gives a zero, a finite number or an
    infinity. *)
Lemma binary_round_aux_not_nan prec emax sx mx ex lx :
  (0 ≤ mx)%Z → binary_round_aux prec emax sx mx ex lx ≠ S754_nan.
Proof.
  intros Hm. unfold binary_round_aux.
  pose proof (shr_fexp_nonneg prec emax mx ex lx Hm) as H1.
  destruct (shr_fexp prec emax mx ex lx) as [mrs' e']. simpl in H1.
  pose proof (round_nearest_even_nonneg _ (loc_of_shr_record mrs') H1) as H2.
  pose proof (shr_fexp_nonneg prec emax _ e' loc_Exact H2) as H3.
  destruct (shr_fexp prec emax _ e' loc_Exact) as [mrs'' e'']. simpl in H3.
  destruct (shr_m mrs'') as [|p|p]; [done| |lia].
  by destruct (_ <=? _)%Z.
Qed.

Lemma binary_normalize_not_nan prec emax m e sz :
  binary_normalize prec emax m e sz ≠ S754_nan.
Proof.
  unfold binary_normalize, binary_round.
  destruct m as [|p|p]; [done| |];
    destruct (shl_align _ _ _) as [mz ez]; by apply binary_round_aux_not_nan.
Qed.

End Rounding.

Module F64Facts.
Import F64.

Lemma is_nan_true x : is_nan x = true ↔ x = nan.
Proof. destruct x; simpl; split; (done || discriminate). Qed.

Lemma is_nan_false x : is_nan x = false ↔ x ≠ nan.
Proof. destruct x; simpl; split; (done || discriminate). Qed.

(** Not-a-number goes through every operation. *)
Lemma add_nan_l y : add nan y = nan.  Proof. done. Qed.
Lemma add_nan_r x : add x nan = nan.  Proof. by destruct x. Qed.
Lemma sub_nan_l y : sub nan y = nan.  Proof. done. Qed.
Lemma sub_nan_r x : sub x nan = nan.  Proof. by destruct x. Qed.
Lemma mul_nan_l y : mul nan y = nan.  Proof. done. Qed.
Lemma mul_nan_r x : mul x nan = nan.  Proof. by destruct x. Qed.
Lemma abs_nan : abs nan = nan.  Proof. done. Qed.
Lemma minimum_nan_l b : minimum nan b = nan.  Proof. done. Qed.
Lemma minimum_nan_r a : minimum a nan = nan.
Proof. unfold minimum. destruct a; done. Qed.

(** Finite operands: the result may overflow to an infinity, it is never
    not-a-number. *)
Lemma mul_finite x y : is_finite x = true → is_finite y = true → is_nan (mul x y) = false.
Proof.
  intros Hx Hy. destruct x, y; try done.
  apply is_nan_false. by apply binary_round_aux_not_nan.
Qed.

Lemma add_finite_l x y : is_finite x = true → is_nan y = false → is_nan (add x y) = false.
Proof.
  intros Hx Hy. destruct x as [sx| | |sx mx ex], y as [sy|sy| |sy my ey]; try done.
  - by destruct sx, sy.
  - apply is_nan_false, binary_normalize_not_nan.
Qed.

Lemma sub_finite_l x y : is_finite x = true → is_nan y = false → is_nan (sub x y) = false.
Proof.
  intros Hx Hy. destruct x as [sx| | |sx mx ex], y as [sy|sy| |sy my ey]; try done.
  - by destruct sx, sy.
  - apply is_nan_false, binary_normalize_not_nan.
Qed.

Lemma abs_is_nan x : is_nan (abs x) = is_nan x.
Proof. by destruct x. Qed.

(** An absolute value is not-a-number or at least zero. *)
Lemma abs_nonneg x : is_nan x = false → nonneg (abs x) = true.
Proof. by destruct x. Qed.

Lemma minimum_cases a b : minimum a b = a ∨ minimum a b = b.
Proof. unfold minimum. destruct (is_nan a), (leb a b); auto. Qed.

Lemma minimum_is_nan a b : is_nan (minimum a b) = is_nan a || is_nan b.
Proof.
  unfold minimum. destruct (is_nan a) eqn:Ha; [by rewrite Ha|].
  destruct (leb a b) eqn:Hab; simpl.
  - rewrite Ha. destruct b; try done. by destruct a.
  - done.
Qed.

Lemma minimum_nonneg a b :
  nonneg a = true → nonneg b = true → nonneg (minimum a b) = true.
Proof. intros Ha Hb. by destruct (minimum_cases a b) as [-> | ->]. Qed.

Lemma f20_finite : is_finite f20 = true.
Proof. done. Qed.

End F64Facts.

(** ** The score of a segment and its neighbours *)

Section Scores.
Import F64 F64Facts.
Implicit Types (h s : list float).

Lemma delta_second_nan_of_first h s j :
  length s = length h →
  delta_first h s !! j = Some nan → delta_second h s !! j = Some nan.
Proof.
  intros Hlen Hj. apply lookup_lt_Some in Hj as Hlt.
  rewrite length_delta_first in Hlt by done.
  destruct (decide (length h = S j)) as [Hlast|Hin].
  - by rewrite lookup_delta_second_last.
  - destruct (lookup_lt_is_Some_2 h j) as [hj Hhj]; [lia|].
    destruct (lookup_lt_is_Some_2 h (S j)) as [hn Hhn]; [lia|].
    destruct (lookup_lt_is_Some_2 s (S j)) as [sn Hsn]; [lia|].
    by rewrite (lookup_delta_second_inner _ _ _ _ _ _ _ Hlen Hj Hhj Hhn Hsn).
Qed.

Lemma delta_second_nan_of_next h s j hj hn sn :
  length s = length h →
  h !! j = Some hj → h !! S j = Some hn → s !! S j = Some sn →
  from_next hj hn sn = nan →
  delta_second h s !! j = Some nan.
Proof.
  intros Hlen Hhj Hhn Hsn Hnan. apply lookup_lt_Some in Hhn as Hlt.
  destruct (lookup_lt_is_Some_2 (delta_first h s) j) as [a Ha].
  { rewrite length_delta_first by done. lia. }
  rewrite (lookup_delta_second_inner _ _ _ _ _ _ _ Hlen Ha Hhj Hhn Hsn), Hnan.
  by rewrite minimum_nan_r.
Qed.

Lemma from_prev_nan_h hp sp : from_prev nan hp sp = nan.
Proof. done. Qed.
Lemma from_prev_nan_hp hi sp : from_prev hi nan sp = nan.
Proof. unfold from_prev. by rewrite add_nan_l, sub_nan_r. Qed.
Lemma from_prev_nan_sp hi hp : from_prev hi hp nan = nan.
Proof. unfold from_prev. by rewrite mul_nan_l, add_nan_r, sub_nan_r. Qed.
Lemma from_next_nan_h hn sn : from_next nan hn sn = nan.
Proof. done. Qed.
Lemma from_next_nan_hn hi sn : from_next hi nan sn = nan.
Proof. unfold from_next. by rewrite sub_nan_l, sub_nan_r. Qed.
Lemma from_next_nan_sn hi hn : from_next hi hn nan = nan.
Proof. unfold from_next. by rewrite mul_nan_l, !sub_nan_r. Qed.

Lemma from_prev_finite hi hp sp :
  is_finite hi = true → is_finite hp = true → is_finite sp = true →
  nonneg (from_prev hi hp sp) = true.
Proof.
  intros Hi Hp Hs. unfold from_prev. apply abs_nonneg.
  apply sub_finite_l; [done|]. apply add_finite_l; [done|].
  apply mul_finite; [done | apply f20_finite].
Qed.

Lemma from_next_finite hi hn sn :
  is_finite hi = true → is_finite hn = true → is_finite sn = true →
  nonneg (from_next hi hn sn) = true.
Proof.
  intros Hi Hn Hs. unfold from_next. apply abs_nonneg.
  apply sub_finite_l; [done|]. apply sub_finite_l; [done|].
  apply mul_finite; [done | apply f20_finite].
Qed.

(** The score of a segment with two neighbours. *)
Lemma score_interior (D6 : table) h s i hp hi hn sp sn :
  D6 !! "h_li" = Some h → D6 !! "dh_fit_dx" = Some s → length s = length h →
  h !! i = Some hp → h !! S i = Some hi → h !! S (S i) = Some hn →
  s !! i = Some sp → s !! S (S i) = Some sn →
  ∃ sc, min_seg_difference D6 = Ok sc ∧ length sc = length h ∧
        sc !! S i = Some (minimum (from_prev hi hp sp) (from_next hi hn sn)).
Proof.
  intros HD Hs Hlen Hp Hi Hn Hsp Hsn. exists (delta_second h s).
  split; [by apply min_seg_difference_eq|].
  split; [by apply length_delta_second|].
  apply lookup_delta_second_inner; try done.
  by apply lookup_delta_first_S.
Qed.

(** The score of the first of several segments: zero against the one
    comparison. *)
Lemma score_first (D6 : table) h s (h0 h1 s1 : float) :
  D6 !! "h_li" = Some h → D6 !! "dh_fit_dx" = Some s → length s = length h →
  h !! 0%nat = Some h0 → h !! 1%nat = Some h1 → s !! 1%nat = Some s1 →
  ∃ sc, min_seg_difference D6 = Ok sc ∧
        sc !! 0%nat = Some (minimum zero (from_next h0 h1 s1)).
Proof.
  intros HD Hs Hlen H0 H1 Hs1. exists (delta_second h s).
  split; [by apply min_seg_difference_eq|].
  apply lookup_delta_second_inner; try done.
  by apply lookup_delta_first_0 with h0.
Qed.

(** The score of the last of several segments: the one comparison. *)
Lemma score_last (D6 : table) h s i hp hi sp :
  D6 !! "h_li" = Some h → D6 !! "dh_fit_dx" = Some s → length s = length h →
  length h = S (S i) →
  h !! i = Some hp → h !! S i = Some hi → s !! i = Some sp →
  ∃ sc, min_seg_difference D6 = Ok sc ∧ sc !! S i = Some (from_prev hi hp sp).
Proof.
  intros HD Hs Hlen Hn Hp Hi Hsp. exists (delta_second h s).
  split; [by apply min_seg_difference_eq|].
  rewrite lookup_delta_second_last by done.
  by apply lookup_delta_first_S.
Qed.

(** A comparison that is not-a-number makes the score not-a-number. *)
Lemma score_nan_of_prev h s i hp hi sp :
  length s = length h →
  h !! i = Some hp → h !! S i = Some hi → s !! i = Some sp →
  from_prev hi hp sp = nan →
  delta_second h s !! S i = Some nan.
Proof.
  intros Hlen Hp Hi Hs Hnan. apply delta_second_nan_of_first; [done|].
  by rewrite (lookup_delta_first_S _ _ _ _ _ _ Hlen Hp Hi Hs), Hnan.
Qed.

Lemma score_nan_of_next h s j :
  length s = length h → (S j < length h)%nat →
  (∀ hj hn sn, h !! j = Some hj → h !! S j = Some hn → s !! S j = Some sn →
               from_next hj hn sn = nan) →
  delta_second h s !! j = Some nan.
Proof.
  intros Hlen Hlt Hnan.
  destruct (lookup_lt_is_Some_2 h j) as [hj Hhj]; [lia|].
  destruct (lookup_lt_is_Some_2 h (S j)) as [hn Hhn]; [lia|].
  destruct (lookup_lt_is_Some_2 s (S j)) as [sn Hsn]; [lia|].
  eapply delta_second_nan_of_next; eauto.
Qed.

Lemma score_nan_of_prev' h s i :
  length s = length h → (S i < length h)%nat →
  (∀ hp hi sp, h !! i = Some hp → h !! S i = Some hi → s !! i = Some sp →
               from_prev hi hp sp = nan) →
  delta_second h s !! S i = Some nan.
Proof.
  intros Hlen Hlt Hnan.
  destruct (lookup_lt_is_Some_2 h i) as [hp Hhp]; [lia|].
  destruct (lookup_lt_is_Some_2 h (S i)) as [hi Hhi]; [lia|].
  destruct (lookup_lt_is_Some_2 s i) as [sp Hsp]; [lia|].
  eapply score_nan_of_prev; eauto.
Qed.

(** A missing elevation reaches the score of the segment and of both
    neighbours. *)
Lemma score_nan_elevation h s i j :
  length s = length h → (2 ≤ length h)%nat →
  h !! i = Some nan → (j = i ∨ j = S i ∨ S j = i) → (j < length h)%nat →
  delta_second h s !! j = Some nan.
Proof.
  intros Hlen H2 Hi Hj Hlt. destruct Hj as [-> | [-> | <-]].
  - destruct (decide (S i < length h)%nat) as [Hin|Hlast].
    + apply score_nan_of_next; [done..|]. intros hj hn sn Hhj _ _.
      rewrite Hi in Hhj. injection Hhj as <-. apply from_next_nan_h.
    + destruct i as [|p]; [lia|].
      apply score_nan_of_prev'; [done..|]. intros hp hi sp _ Hhi _.
      rewrite Hi in Hhi. injection Hhi as <-. apply from_prev_nan_h.
  - apply score_nan_of_prev'; [done..|]. intros hp hi sp Hhp _ _.
    rewrite Hi in Hhp. injection Hhp as <-. apply from_prev_nan_hp.
  - apply lookup_lt_Some in Hi as Hlt'.
    apply score_nan_of_next; [done..|]. intros hj hn sn _ Hhn _.
    rewrite Hi in Hhn. injection Hhn as <-. apply from_next_nan_hn.
Qed.

(** A missing slope reaches the score of both neighbours. *)
Lemma score_nan_slope h s i j :
  length s = length h →
  s !! i = Some nan → (j = S i ∨ S j = i) → (j < length h)%nat →
  delta_second h s !! j = Some nan.
Proof.
  intros Hlen Hi Hj Hlt. destruct Hj as [-> | <-].
  - apply score_nan_of_prev'; [done..|]. intros hp hi sp _ _ Hsp.
    rewrite Hi in Hsp. injection Hsp as <-. apply from_prev_nan_sp.
  - apply lookup_lt_Some in Hi as Hlt'. rewrite Hlen in Hlt'.
    apply score_nan_of_next; [done..|]. intros hj hn sn _ _ Hsn.
    rewrite Hi in Hsn. injection Hsn as <-. apply from_next_nan_sn.
Qed.

(** Whatever the comparison says, the first score is zero or
    not-a-number. *)
Lemma minimum_zero_abs x :
  minimum zero (abs x) = zero ∨ minimum zero (abs x) = nan.
Proof. destruct x as [[]|[]| |[] m e]; cbv; auto. Qed.

Lemma score_first_zero_or_nan (D6 : table) h s :
  D6 !! "h_li" = Some h → D6 !! "dh_fit_dx" = Some s → length s = length h →
  (2 ≤ length h)%nat →
  ∃ sc x, min_seg_difference D6 = Ok sc ∧ sc !! 0%nat = Some x ∧
          (x = zero ∨ x = nan).
Proof.
  intros HD Hs Hlen H2.
  destruct (lookup_lt_is_Some_2 h 0) as [h0 Hh0]; [lia|].
  destruct (lookup_lt_is_Some_2 h 1) as [h1 Hh1]; [lia|].
  destruct (lookup_lt_is_Some_2 s 1) as [s1 Hs1]; [lia|].
  destruct (score_first D6 h s h0 h1 s1) as (sc & Hsc & H0); try done.
  exists sc, (minimum zero (from_next h0 h1 s1)). repeat split; try done.
  apply minimum_zero_abs.
Qed.

End Scores.

(** ** The corrected elevation *)

Section Corrector.
Import F64 F64Facts.
Implicit Types (h y dy q : list float).

Lemma atc_corr_eq (Dl : table) y dy :
  Dl !! "y_atc" = Some y → Dl !! "dh_fit_dy" = Some dy → length dy = length y →
  atc_corr Dl = Ok (zip_with mul y dy).
Proof.
  intros Hy Hdy Hlen. unfold atc_corr.
  rewrite (getitem_Some _ _ _ Hy). cbn. rewrite (getitem_Some _ _ _ Hdy). cbn.
  by apply broadcast2_same.
Qed.

(** What is drawn is the corrected column, at the good segments. *)
Lemma corrected_elevation_eq (Dl : table) h y dy q :
  Dl !! "h_li" = Some h → Dl !! "y_atc" = Some y → Dl !! "dh_fit_dy" = Some dy →
  Dl !! "atl06_quality_summary" = Some q →
  length y = length h → length dy = length h → length q = length h →
  corrected_elevation Dl
  = Ok (select (corrected_column h y dy) (map (λ x, eqb x zero) q)).
Proof.
  intros Hh Hy Hdy Hq Ly Ldy Lq. unfold corrected_elevation, good_mask.
  rewrite (getitem_Some _ _ _ Hq). cbn.
  rewrite (atc_corr_eq _ y dy) by (done || by rewrite Ldy, Ly). cbn.
  rewrite (getitem_Some _ _ _ Hh). cbn.
  rewrite !mask_index_same
    by (by rewrite ?length_map, ?length_zip_with, ?Lq, ?Ly, ?Ldy, ?Nat.min_id).
  cbn.
  unfold np_sub. rewrite broadcast2_same.
  - by rewrite select_zip_with.
  - apply length_select2. by rewrite length_zip_with, Ly, Ldy, Nat.min_id.
Qed.

Lemma lookup_corrected_column h y dy i hi yi di :
  h !! i = Some hi → y !! i = Some yi → dy !! i = Some di →
  corrected_column h y dy !! i = Some (corrected1 hi yi di).
Proof.
  intros Hh Hy Hdy. unfold corrected_column.
  by rewrite !lookup_zip_with, Hh, Hy, Hdy.
Qed.

(** On the reference line a finite slope changes nothing, up to the sign
    of a zero elevation. *)
Lemma corrected1_on_line hi yi di :
  is_zero yi = true → is_finite di = true →
  corrected1 hi yi di = hi
  ∨ (is_zero hi = true ∧ is_zero (corrected1 hi yi di) = true).
Proof.
  intros Hy Hd. unfold corrected1.
  destruct yi as [sy| | |]; try done.
  destruct di as [sd| | |sd md ed]; try done;
    destruct hi as [sh|sh| |sh mh eh]; cbn; auto;
    destruct sh, sy, sd; cbn; auto.
Qed.

(** On the reference line a slope that is infinite or not-a-number gives
    not-a-number. *)
Lemma corrected1_on_line_no_slope hi yi di :
  is_zero yi = true → is_finite di = false → corrected1 hi yi di = nan.
Proof.
  intros Hy Hd. unfold corrected1.
  destruct yi as [sy| | |]; try done.
  destruct di as [sd|sd| |sd md ed]; try done; by destruct hi.
Qed.

Lemma corrected1_nan hi yi di :
  is_nan hi || is_nan yi || is_nan di = true → corrected1 hi yi di = nan.
Proof.
  unfold corrected1. intros H.
  destruct hi; [| |done|]; destruct yi; try (by rewrite mul_nan_l);
    destruct di; try (by rewrite mul_nan_r); done.
Qed.

End Corrector.

(** ** The reader *)

Section Reader.
Implicit Types (h5f : h5file) (D : gmap string ndarray) (dss : list string)
  (field_dict : fields) (key : option string) (ds beam : string)
  (index : option slice).

Lemma read_field_eq h5f beam index key D ds :
  read_field h5f beam index key D ds
  = (d ← getitem h5f (ds_name beam key ds); Ok (<[ds := stored index d]> D)).
Proof.
  unfold read_field, stored. destruct (getitem h5f _) as [d|e]; [|done]. cbn.
  by destruct (ds_attrs d !! "_FillValue").
Qed.

Lemma read_field_Ok h5f beam index key D ds D' :
  read_field h5f beam index key D ds = Ok D' →
  ∃ d, h5f !! ds_name beam key ds = Some d ∧ D' = <[ds := stored index d]> D.
Proof.
  rewrite read_field_eq. unfold getitem.
  destruct (h5f !! ds_name beam key ds) as [d|] eqn:E; [|done]. cbn.
  intros [= <-]. eauto.
Qed.

(** The loops raise nothing but [KeyError]. *)
Lemma read_field_Raise h5f beam index key D ds e :
  read_field h5f beam index key D ds = Raise e →
  h5f !! ds_name beam key ds = None ∧ e = KeyError (ds_name beam key ds).
Proof.
  rewrite read_field_eq. unfold getitem.
  destruct (h5f !! ds_name beam key ds) as [d|] eqn:E; [done|]. cbn.
  by intros [= <-].
Qed.

Lemma read_group_Raise h5f beam index key dss D e :
  read_group h5f beam index key dss D = Raise e → ∃ k, e = KeyError k.
Proof.
  revert D. induction dss as [|ds dss IH]; intros D; [done|]. simpl.
  destruct (read_field h5f beam index key D ds) as [D1|e1] eqn:E; cbn.
  - apply IH.
  - intros [= <-]. apply read_field_Raise in E as [_ ->]. eauto.
Qed.

Lemma read_fields_Raise h5f beam index field_dict D e :
  read_fields h5f beam index field_dict D = Raise e → ∃ k, e = KeyError k.
Proof.
  revert D. induction field_dict as [|[key dss] fd IH]; intros D; [done|]. simpl.
  destruct (read_group h5f beam index key dss D) as [D1|e1] eqn:E; cbn.
  - apply IH.
  - intros [= <-]. by apply read_group_Raise in E.
Qed.

(** After a group: its datasets are stored, the other entries are kept. *)
Lemma read_group_lookup h5f beam index key dss D D' ds :
  read_group h5f beam index key dss D = Ok D' →
  D' !! ds = if decide (ds ∈ dss)
             then stored index <$> h5f !! ds_name beam key ds
             else D !! ds.
Proof.
  revert D. induction dss as [|d0 dss IH]; intros D; simpl.
  - by intros [= <-].
  - destruct (read_field h5f beam index key D d0) as [D1|e1] eqn:E; [|done]. cbn.
    intros H. rewrite (IH _ H).
    apply read_field_Ok in E as (d & Hd & ->).
    destruct (decide (ds ∈ dss)) as [Hin|Hout].
    + rewrite decide_True; [done | by right].
    + destruct (decide (ds = d0)) as [->|Hne].
      * rewrite decide_True by left. by rewrite lookup_insert_eq, Hd.
      * rewrite lookup_insert_ne by done.
        rewrite decide_False; [done|]. rewrite elem_of_cons. tauto.
Qed.

(** After all groups: an entry comes from the last group that lists it. *)
Lemma read_fields_lookup h5f beam index field_dict D D' ds :
  read_fields h5f beam index field_dict D = Ok D' →
  D' !! ds = match last_group field_dict ds with
             | Some key => stored index <$> h5f !! ds_name beam key ds
             | None => D !! ds
             end.
Proof.
  revert D. induction field_dict as [|[key dss] fd IH]; intros D; simpl.
  - by intros [= <-].
  - destruct (read_group h5f beam index key dss D) as [D1|e1] eqn:E; [|done]. cbn.
    intros H. rewrite (IH _ H).
    destruct (last_group fd ds); [done|].
    rewrite (read_group_lookup _ _ _ _ _ _ _ ds E).
    by destruct (decide (ds ∈ dss)).
Qed.

(** Every dataset of a successful read is in the file. *)
Lemma read_group_present h5f beam index key dss D D' ds :
  read_group h5f beam index key dss D = Ok D' → ds ∈ dss →
  is_Some (h5f !! ds_name beam key ds).
Proof.
  revert D. induction dss as [|d0 dss IH]; intros D; simpl.
  - intros _ Hin. by apply elem_of_nil in Hin.
  - destruct (read_field h5f beam index key D d0) as [D1|e1] eqn:E; [|done]. cbn.
    intros H Hin. apply elem_of_cons in Hin as [->|Hin]; [|by eapply IH].
    apply read_field_Ok in E as (d & Hd & _). eauto.
Qed.

Lemma read_fields_present h5f beam index field_dict D D' key dss ds :
  read_fields h5f beam index field_dict D = Ok D' →
  (key, dss) ∈ field_dict → ds ∈ dss →
  is_Some (h5f !! ds_name beam key ds).
Proof.
  revert D. induction field_dict as [|[key0 dss0] fd IH]; intros D; simpl.
  - intros _ Hin. by apply elem_of_nil in Hin.
  - destruct (read_group h5f beam index key0 dss0 D) as [D1|e1] eqn:E; [|done]. cbn.
    intros H Hin Hds. apply elem_of_cons in Hin as [[= -> ->]|Hin].
    + by eapply read_group_present.
    + by eapply IH.
Qed.

(** A requested dataset that the file lacks makes the loops raise
    [KeyError]. *)
Lemma read_fields_missing h5f beam index field_dict D key dss ds :
  (key, dss) ∈ field_dict → ds ∈ dss → h5f !! ds_name beam key ds = None →
  ∃ k, read_fields h5f beam index field_dict D = Raise (KeyError k).
Proof.
  intros Hin Hds Hnone.
  destruct (read_fields h5f beam index field_dict D) as [D'|e] eqn:E.
  - destruct (read_fields_present _ _ _ _ _ _ _ _ _ E Hin Hds) as [d Hd]. congruence.
  - apply read_fields_Raise in E as [k ->]. eauto.
Qed.

(** When one group only lists [ds], that group is the last. *)
Lemma last_group_Some field_dict ds key :
  last_group field_dict ds = Some key →
  ∃ dss, (key, dss) ∈ field_dict ∧ ds ∈ dss.
Proof.
  induction field_dict as [|[key0 dss0] fd IH]; cbn [last_group]; [done|].
  destruct (last_group fd ds) as [k|].
  - intros [= ->]. destruct IH as (dss & H1 & H2); [done|].
    exists dss. split; [by right | done].
  - case_decide as Hin; [|done]. intros [= ->].
    exists dss0. split; [by left | done].
Qed.

Lemma last_group_unique field_dict key dss ds :
  (key, dss) ∈ field_dict → ds ∈ dss →
  (∀ key' dss', (key', dss') ∈ field_dict → ds ∈ dss' → key' = key) →
  last_group field_dict ds = Some key.
Proof.
  induction field_dict as [|[key0 dss0] fd IH]; intros Hin Hds Huniq;
    cbn [last_group].
  - by apply elem_of_nil in Hin.
  - destruct (last_group fd ds) as [k|] eqn:E.
    + apply last_group_Some in E as (dss' & H1 & H2).
      f_equal. apply (Huniq k dss'); [by right | done].
    + apply elem_of_cons in Hin as [Heq|Hin].
      * injection Heq as <- <-. by rewrite decide_True.
      * exfalso. enough (@None (option string) = Some key) by done.
        apply IH; [done..|]. intros key' dss' H1 H2.
        apply (Huniq key' dss'); [by right | done].
Qed.

Lemma project_lookup E epsg D D' ds :
  project E epsg D = Ok D' → ds ≠ "x" → ds ≠ "y" → D' !! ds = D !! ds.
Proof.
  unfold project. intros H Hx Hy.
  repeat (apply bind_Ok_inv in H as (? & _ & H)).
  injection H as <-. by rewrite !lookup_insert_ne.
Qed.

(** A successful read: the file was opened, the loops and the pattern
    succeeded, and every name but the five the reader adds itself holds
    what the loops stored. *)
Lemma atl06_to_dict_Ok E filename beam (fd : option fields) index epsg Dout :
  atl06_to_dict E filename beam fd index epsg = Ok Dout →
  ∃ h5f D temp,
    files E !! filename = Some h5f ∧
    read_fields h5f beam index (default default_field_dict fd) ∅ = Ok D ∧
    file_re_search filename = Some temp ∧
    ∀ ds, ds ≠ "rgt" → ds ≠ "cycle" → ds ≠ "beam" →
          (epsg = None ∨ (ds ≠ "x" ∧ ds ≠ "y")) →
          Dout !! ds = VArr <$> D !! ds.
Proof.
  unfold atl06_to_dict, h5py_File. intros H.
  apply bind_Ok_inv in H as (D & HD & H).
  destruct (files E !! filename) as [h5f|] eqn:Ef; [|done]. cbn in HD.
  apply bind_Ok_inv in H as (D2 & HD2 & H).
  destruct (file_re_search filename) as [temp|] eqn:Et; [|done].
  injection H as <-. exists h5f, D, temp. repeat split; try done.
  intros ds H1 H2 H3 H4. rewrite !lookup_insert_ne by done.
  rewrite lookup_fmap. f_equal.
  destruct epsg as [code|].
  - destruct H4 as [|[Hx Hy]]; [done|]. by eapply project_lookup.
  - by injection HD2 as <-.
Qed.

(** The entry of a requested dataset is what the loop body stored for it,
    read from the last group that lists it. *)
Lemma atl06_to_dict_field E filename beam (fd : option fields) index epsg Dout key ds :
  atl06_to_dict E filename beam fd index epsg = Ok Dout →
  last_group (default default_field_dict fd) ds = Some key →
  ds ≠ "rgt" → ds ≠ "cycle" → ds ≠ "beam" →
  (epsg = None ∨ (ds ≠ "x" ∧ ds ≠ "y")) →
  ∃ h5f d,
    files E !! filename = Some h5f ∧ h5f !! ds_name beam key ds = Some d ∧
    Dout !! ds = Some (VArr (stored index d)).
Proof.
  intros H Hlast H1 H2 H3 H4.
  apply atl06_to_dict_Ok in H as (h5f & D & temp & Hf & HD & _ & Hout).
  apply last_group_Some in Hlast as Hin. destruct Hin as (dss & Hin & Hds).
  destruct (read_fields_present _ _ _ _ _ _ _ _ _ HD Hin Hds) as [d Hd].
  exists h5f, d. repeat split; try done.
  rewrite Hout by done.
  by rewrite (read_fields_lookup _ _ _ _ _ _ ds HD), Hlast, Hd.
Qed.

(** The notebook's loop catches [KeyError] only: a [TypeError] ends it. *)
Lemma read_files_TypeError E file rest st :
  atl06_to_dict E file "/gt2l" None (Some slice_0_m1_25) (Some 3031%Z)
  = Raise TypeError →
  read_files E (file :: rest) st = (st, Some TypeError).
Proof. intros H. simpl. by rewrite H. Qed.

End Reader.

(** ** Integers as binary64 numbers *)

Section Exact.
Local Open Scope Z_scope.

Lemma digits2_pos_size m : digits2_pos m = Pos.size m.
Proof. induction m; simpl; congruence. Qed.

Lemma digits2_pos_shift m k :
  Z.pos (digits2_pos (Pos.iter xO m k)) = Z.pos (digits2_pos m) + Z.pos k.
Proof.
  induction k as [|k IH] using Pos.peano_ind.
  - simpl. lia.
  - rewrite Pos.iter_succ. simpl. lia.
Qed.

Lemma Zpos_shift m k : Z.pos (Pos.iter xO m k) = Z.pos m * 2 ^ Z.pos k.
Proof.
  induction k as [|k IH] using Pos.peano_ind.
  - simpl. lia.
  - rewrite Pos.iter_succ, Pos2Z.inj_succ, Z.pow_succ_r by lia. lia.
Qed.

(** The bounds of a number of [d] binary digits. *)
Lemma digits2_pos_bounds m :
  2 ^ (Z.pos (digits2_pos m) - 1) ≤ Z.pos m < 2 ^ Z.pos (digits2_pos m).
Proof.
  rewrite digits2_pos_size.
  pose proof (Pos.size_le m) as Hle. pose proof (Pos.size_gt m) as Hgt.
  apply Pos2Z.pos_le_pos in Hle. apply Pos2Z.pos_lt_pos in Hgt.
  rewrite Pos2Z.inj_pow in Hle, Hgt.
  replace (Z.pos (Pos.size m)) with (Z.succ (Z.pos (Pos.size m) - 1)) in Hle at 1 by lia.
  rewrite Z.pow_succ_r in Hle by lia. lia.
Qed.

(** A mantissa of 53 digits with an exponent in range is kept as it
    is. *)
Lemma binary_round_aux_exact sg mz ez :
  Z.pos (digits2_pos mz) = 53 → -1074 ≤ ez ≤ 971 →
  binary_round_aux 53 1024 sg (Z.pos mz) ez loc_Exact = S754_finite sg mz ez.
Proof.
  intros Hd He. unfold binary_round_aux.
  assert (shr_fexp 53 1024 (Z.pos mz) ez loc_Exact
          = ({| shr_m := Z.pos mz; shr_r := false; shr_s := false |}, ez)) as Hshr.
  { unfold shr_fexp, fexp, emin. simpl Zdigits2. rewrite Hd.
    replace (Z.max (53 + ez - 53) (3 - 1024 - 53) - ez) with 0 by lia. done. }
  rewrite Hshr. simpl. rewrite Hshr. simpl.
  destruct (ez <=? 1024 - 53) eqn:E; [done|]. lia.
Qed.

Lemma of_Z_pos_small sg m :
  Z.pos (digits2_pos m) ≤ 53 →
  ∃ mz ez, binary_round 53 1024 sg m 0 = S754_finite sg mz ez ∧
           ez ≤ 0 ∧ Z.pos mz = Z.pos m * 2 ^ (- ez).
Proof.
  intros Hd. unfold binary_round, fexp, emin.
  rewrite Z.add_0_r.
  replace (Z.max (Z.pos (digits2_pos m) - 53) (3 - 1024 - 53))
    with (Z.pos (digits2_pos m) - 53) by lia.
  unfold shl_align. rewrite Z.sub_0_r.
  destruct (Z.pos (digits2_pos m) - 53) as [|k|k] eqn:Ek; [|lia|].
  - exists m, 0. split; [|simpl; lia]. apply binary_round_aux_exact; lia.
  - exists (Pos.iter xO m k), (Z.neg k). split; [|split; [lia|]].
    + apply binary_round_aux_exact; [|lia]. rewrite digits2_pos_shift. lia.
    + rewrite Zpos_shift. done.
Qed.

Lemma to_Z_finite sg mz ez m :
  ez ≤ 0 → Z.pos mz = Z.pos m * 2 ^ (- ez) →
  to_Z (S754_finite sg mz ez) = Some (if sg then Z.neg m else Z.pos m).
Proof.
  intros He Hm. unfold to_Z.
  destruct (0 <=? ez) eqn:E.
  - assert (ez = 0) as -> by lia. simpl in Hm. rewrite Z.mul_1_r in *.
    injection Hm as ->. by destruct sg.
  - rewrite Hm, Z_mod_mult. simpl (0 =? 0). cbv iota.
    rewrite Z.div_mul by (apply Z.pow_nonzero; lia). by destruct sg.
Qed.

Lemma to_Z_of_Z_pos sg m :
  Z.pos m ≤ 2 ^ 53 →
  to_Z (binary_round 53 1024 sg m 0) = Some (if sg then Z.neg m else Z.pos m).
Proof.
  intros Hm. pose proof (digits2_pos_bounds m) as [Hlo Hhi].
  destruct (decide (Z.pos (digits2_pos m) ≤ 53)) as [Hd|Hd].
  - destruct (of_Z_pos_small sg m Hd) as (mz & ez & -> & He & Hmz).
    by apply to_Z_finite.
  - assert (2 ^ 53 ≤ 2 ^ (Z.pos (digits2_pos m) - 1)) as Hp
      by (apply Z.pow_le_mono_r; lia).
    assert (Z.pos m = 2 ^ 53) as Heq by lia.
    change (2 ^ 53) with (Z.pos (2 ^ 53)) in Heq. injection Heq as ->.
    by destruct sg; vm_compute.
Qed.

(** The conversion of an integer of magnitude at most 2^53 is exact. *)
Lemma to_Z_of_Z z : Z.abs z ≤ 2 ^ 53 → to_Z (F64.of_Z z) = Some z.
Proof.
  intros Hz. unfold F64.of_Z, F64.prec, F64.emax, binary_normalize. destruct z as [|m|m]; [done| |].
  - apply (to_Z_of_Z_pos false). simpl in Hz. lia.
  - apply (to_Z_of_Z_pos true). simpl in Hz. lia.
Qed.
End Exact.

(** ** The fill step *)

Section Fill.

Lemma length_eq_fill a fill : length (eq_fill a fill) = arr_size a.
Proof. destruct a, fill; simpl; by rewrite length_map. Qed.

Lemma length_astype_float a : length (astype_float a) = arr_size a.
Proof. destruct a; simpl; [by rewrite length_map | done]. Qed.

Lemma length_set_nan a fill :
  length (set_nan (astype_float a) (eq_fill a fill)) = arr_size a.
Proof.
  unfold set_nan. rewrite length_zip_with, length_eq_fill, length_astype_float. lia.
Qed.

Lemma lookup_set_nan_true (a : list float) bad i :
  (length a = length bad)%nat →
  bad !! i = Some true → set_nan a bad !! i = Some F64.nan.
Proof.
  intros Hlen Hb. unfold set_nan. rewrite lookup_zip_with, Hb.
  destruct (lookup_lt_is_Some_2 a i) as [x ->]; [|done].
  apply lookup_lt_Some in Hb. lia.
Qed.

Lemma lookup_set_nan_false (a : list float) bad i :
  bad !! i = Some false → set_nan a bad !! i = a !! i.
Proof.
  intros Hb. unfold set_nan. rewrite lookup_zip_with, Hb.
  by destruct (a !! i).
Qed.

(** Without a flagged entry the fill step is the cast alone. *)
Lemma set_nan_none (a : list float) bad :
  (length a = length bad)%nat → (∀ b, b ∈ bad → b = false) → set_nan a bad = a.
Proof.
  revert bad. induction a as [|x a IH]; intros [|b bad] Hlen Hall; try done.
  unfold set_nan. simpl. rewrite (Hall b) by left. f_equal.
  apply IH; [simpl in Hlen; lia|]. intros b' Hb'. apply Hall. by right.
Qed.

(** The cast keeps floating-point numbers, and integers of magnitude at
    most 2^53. *)
Lemma same_values_astype_float a :
  (∀ zs, a = IntArr zs → Forall (λ z, Z.abs z ≤ 2 ^ 53)%Z zs) →
  same_values a (FloatArr (astype_float a)).
Proof.
  destruct a as [zs|xs]; simpl; [|done]. intros H.
  specialize (H zs eq_refl). induction H as [|z zs Hz _ IH]; simpl.
  - constructor.
  - constructor; [by apply to_Z_of_Z | done].
Qed.

Lemma same_values_refl a : same_values a a.
Proof. by destruct a. Qed.

End Fill.

(** ** The loop over the files *)

Section Batch.

Lemma read_files_app E l1 l2 st :
  read_files E (l1 ++ l2) st
  = match read_files E l1 st with
    | (st', None) => read_files E l2 st'
    | r => r
    end.
Proof.
  revert st. induction l1 as [|f l1 IH]; intros st; simpl; [done|].
  destruct (atl06_to_dict E f _ _ _ _) as [D|[]]; by rewrite ?IH.
Qed.

(** What was printed has no effect on what is read. *)
Lemma read_files_printed E l d p p' :
  let r := read_files E l {| D_dict := d; printed := p |} in
  let r' := read_files E l {| D_dict := d; printed := p' |} in
  D_dict r.1 = D_dict r'.1 ∧ r.2 = r'.2.
Proof.
  revert d p p'. induction l as [|f l IH]; intros d p p'; simpl; [done|].
  destruct (atl06_to_dict E f _ _ _ _) as [D|[]]; simpl; auto.
Qed.

(** A file whose read raises [KeyError] leaves [D_dict] and the fate of
    the loop as they are without it. *)
Lemma read_files_skip E l1 l2 file k st :
  atl06_to_dict E file "/gt2l" None (Some slice_0_m1_25) (Some 3031%Z)
  = Raise (KeyError k) →
  let r := read_files E (l1 ++ file :: l2) st in
  let r' := read_files E (l1 ++ l2) st in
  D_dict r.1 = D_dict r'.1 ∧ r.2 = r'.2.
Proof.
  intros Hk. cbn zeta. rewrite !read_files_app.
  destruct (read_files E l1 st) as [[d p] [e|]]; [done|].
  cbn [read_files]. rewrite Hk. apply read_files_printed.
Qed.

(** When every read returns or raises [KeyError], the loop runs to its
    end, and a file is in [D_dict] with what its read returned. *)
Lemma read_files_spec E l st :
  (∀ file, file ∈ l →
     is_ok (batch_read E file) = true ∨ ∃ k, batch_read E file = Raise (KeyError k)) →
  (read_files E l st).2 = None ∧
  ∀ file, D_dict (read_files E l st).1 !! file
          = match batch_read E file with
            | Ok D => if decide (file ∈ l) then Some D else D_dict st !! file
            | Raise _ => D_dict st !! file
            end.
Proof.
  revert st. induction l as [|f l IH]; intros st Hall.
  - split; [done|]. intros file. cbn [read_files fst].
    destruct (batch_read E file); [|done].
    rewrite decide_False; [done | apply not_elem_of_nil].
  - cbn [read_files]. fold (batch_read E f).
    assert (∀ file, file ∈ l →
              is_ok (batch_read E file) = true
              ∨ ∃ k, batch_read E file = Raise (KeyError k)) as Hall'
      by (intros file Hin; apply Hall; by right).
    destruct (Hall f) as [Hok|[k Hk]]; [by left| |].
    + destruct (batch_read E f) as [Df|] eqn:Ef; [|done].
      destruct (IH {| D_dict := <[f:=Df]> (D_dict st); printed := printed st |} Hall')
        as [Hnone Hdict].
      split; [done|]. intros file. rewrite Hdict. cbn [D_dict].
      destruct (decide (f = file)) as [<-|Hne].
      * rewrite Ef, lookup_insert_eq. rewrite (decide_True (P := f ∈ f :: l)) by left.
        by destruct (decide (f ∈ l)).
      * rewrite lookup_insert_ne by done.
        destruct (batch_read E file) as [D|]; [|done].
        destruct (decide (file ∈ l)) as [Hin|Hout].
        -- rewrite decide_True; [done | by right].
        -- rewrite decide_False; [done|]. rewrite elem_of_cons. intros [->|?]; done.
    + rewrite Hk.
      destruct (IH {| D_dict := D_dict st;
                      printed := (f, KeyError k) :: printed st |} Hall')
        as [Hnone Hdict].
      split; [done|]. intros file. rewrite Hdict. cbn [D_dict].
      destruct (batch_read E file) as [D|] eqn:Efile; [|done].
      destruct (decide (file ∈ l)) as [Hin|Hout].
      * rewrite decide_True; [done | by right].
      * rewrite decide_False; [done|]. rewrite elem_of_cons.
        intros [->|?]; [|done]. congruence.
Qed.

(** Nothing enters [D_dict] but what a read of the loop returned. *)
Lemma read_files_lookup_inv E l st file D :
  D_dict (read_files E l st).1 !! file = Some D →
  D_dict st !! file = Some D ∨ (file ∈ l ∧ batch_read E file = Ok D).
Proof.
  revert st. induction l as [|f l IH]; intros st; cbn [read_files]; [by left|].
  fold (batch_read E f).
  destruct (batch_read E f) as [Df|e] eqn:Ef.
  - intros H. apply IH in H as [H|[Hin Hok]]; [|right; split; [by right | done]].
    cbn [D_dict] in H. destruct (decide (f = file)) as [<-|Hne].
    + rewrite lookup_insert_eq in H. injection H as <-.
      right. split; [by left | done].
    + rewrite lookup_insert_ne in H by done. by left.
  - destruct e; try (by left).
    intros H. apply IH in H as [H|[Hin Hok]]; [by left|].
    right. split; [by right | done].
Qed.

(** The lines printed so far stay, and a file whose read raises [KeyError]
    has its line printed once the loop has come to it. *)
Lemma read_files_printed_mono E l st x :
  x ∈ printed st → x ∈ printed (read_files E l st).1.
Proof.
  revert st. induction l as [|f l IH]; intros st Hx; cbn [read_files]; [done|].
  destruct (atl06_to_dict E f _ _ _ _) as [Df|[]]; try done;
    apply IH; cbn [printed]; [done | by right].
Qed.

Lemma read_files_prints E l st file k :
  (∀ f, f ∈ l →
     is_ok (batch_read E f) = true ∨ ∃ k, batch_read E f = Raise (KeyError k)) →
  file ∈ l → batch_read E file = Raise (KeyError k) →
  (file, KeyError k) ∈ printed (read_files E l st).1.
Proof.
  revert st. induction l as [|f l IH]; intros st Hall Hin Hk.
  - by apply elem_of_nil in Hin.
  - cbn [read_files]. fold (batch_read E f).
    assert (∀ f', f' ∈ l →
              is_ok (batch_read E f') = true
              ∨ ∃ k, batch_read E f' = Raise (KeyError k)) as Hall'
      by (intros f' Hf'; apply Hall; by right).
    destruct (decide (f = file)) as [->|Hne].
    + rewrite Hk. apply read_files_printed_mono. cbn [printed]. by left.
    + apply elem_of_cons in Hin as [->|Hin]; [done|].
      destruct (Hall f) as [Hok|[k' Hk']]; [by left| |].
      * destruct (batch_read E f) as [Df|]; [|done]. by apply IH.
      * rewrite Hk'. by apply IH.
Qed.

End Batch.

(** * The specification, statement by statement *)

Section ScorerStatements.
Import F64 F64Facts.

(** C1: on [granule_slopes] the middle segment is level, 20 above its
    predecessor and 20 below its successor.  Extrapolated with its own
    slope over 20, it stays 20 away from both, so the score the claim and
    the notebook's description of the function give is 20.  The function
    returns 0 for it: it compares the segment's elevation with the
    endpoints of the neighbours, built from the neighbours' slopes.
    Whatever distance [d] stands for half the nominal spacing, the score
    returned is not the described one. *)
Theorem C1_middle_segment_scores_zero :
  ∃ (h s sc : list float),
    granule_slopes !! "h_li" = Some h ∧
    granule_slopes !! "dh_fit_dx" = Some s ∧
    min_seg_difference granule_slopes = Ok sc ∧
    sc !! 1%nat = Some zero ∧
    spec_score f20 h s 1 = Some (fZ 20) ∧
    ∀ d : float, sc !! 1%nat ≠ spec_score d h s 1.
Proof.
  exists [fZ 0; fZ 20; fZ 40], [fZ 1; fZ 0; fZ 1], [zero; zero; fZ 20].
  do 5 (split; [by_compute|]).
  intros d H.
  destruct d as [[]|[]| |[] m e]; vm_compute in H; discriminate.
Qed.

(** C3: on [granule_step] the last segment scores its one comparison,
    100, and the first segment scores 0 although its one comparison says
    100 as well: the zero that [np.zeros_like] left in the first cell
    enters the minimum. *)
Theorem C3_first_segment_scores_zero :
  ∃ sc, min_seg_difference granule_step = Ok sc ∧
        sc !! 0%nat = Some zero ∧
        from_next (fZ 0) (fZ 100) (fZ 0) = fZ 100 ∧
        sc !! 1%nat = Some (from_prev (fZ 100) (fZ 0) (fZ 0)) ∧
        from_prev (fZ 100) (fZ 0) (fZ 0) = fZ 100.
Proof. eexists. repeat split; by vm_compute. Qed.

(** The scenario of the specification: on [granule_ramp] the middle
    segment scores 0, which is below 0.05. *)
Example min_seg_difference_granule_ramp :
  ∃ first last,
    min_seg_difference granule_ramp = Ok [first; zero; last] ∧
    SFltb zero (dec 5 100) = true.
Proof. do 2 eexists. split; by vm_compute. Qed.

(** C8: a granule of one segment gets the score zero, and no exception. *)
Theorem C8_single_segment (D6 : table) (x y : float) :
  D6 !! "h_li" = Some [x] → D6 !! "dh_fit_dx" = Some [y] →
  min_seg_difference D6 = Ok [zero].
Proof.
  intros Hh Hs. by rewrite (min_seg_difference_eq D6 [x] [y]).
Qed.

Lemma C8_single_segment_witness : min_seg_difference granule_single = Ok [zero].
Proof. apply (C8_single_segment granule_single (fZ 100) (fZ 1)); reflexivity. Defined.

(** C10: two granules with the same elevations and the same along-track
    slopes get the same result, a score array or an exception, whatever
    their along-track distances are and whether they have any. *)
Theorem C10_score_ignores_x_atc (D6 D6' : table) :
  D6 !! "h_li" = D6' !! "h_li" → D6 !! "dh_fit_dx" = D6' !! "dh_fit_dx" →
  min_seg_difference D6 = min_seg_difference D6'.
Proof.
  intros Hh Hs. unfold min_seg_difference, getitem. by rewrite Hh, Hs.
Qed.

Lemma C10_score_ignores_x_atc_witness :
  granule_slopes !! "x_atc" ≠ granule_slopes_far !! "x_atc" ∧
  min_seg_difference granule_slopes = min_seg_difference granule_slopes_far.
Proof.
  split; [by vm_compute|].
  apply (C10_score_ignores_x_atc granule_slopes granule_slopes_far); reflexivity.
Defined.

End ScorerStatements.

Section NanStatements.
Import F64 F64Facts.

(** C6: in [granule_no_slope] the slope of the middle segment is
    not-a-number.  By the claim, and by the notebook's description of the
    score, which extrapolates a segment with its own slope, the score of
    that segment is not-a-number.  The function returns 0 for it: it reads
    the slopes of the two neighbours and never the segment's own. *)
Theorem C6_missing_slope_scores_zero :
  ∃ (h s sc : list float),
    granule_no_slope !! "h_li" = Some h ∧
    granule_no_slope !! "dh_fit_dx" = Some s ∧ s !! 1%nat = Some nan ∧
    min_seg_difference granule_no_slope = Ok sc ∧
    sc !! 1%nat = Some zero ∧
    spec_score f20 h s 1 = Some nan.
Proof. do 3 eexists. repeat split; by vm_compute. Qed.

End NanStatements.

Section CorrectorStatements.
Import F64 F64Facts.

(** C2, as stated, fails: the one segment of [granule_on_line] is good
    and lies on the reference line, its across-track slope is
    not-a-number, and its corrected elevation is not-a-number instead of
    its raw elevation, 200. *)
Lemma C2_missing_slope_counterexample :
  ∃ (h y dy : list float),
    granule_on_line !! "h_li" = Some h ∧ h !! 0%nat = Some (fZ 200) ∧
    granule_on_line !! "y_atc" = Some y ∧ y !! 0%nat = Some zero ∧
    granule_on_line !! "dh_fit_dy" = Some dy ∧
    corrected_elevation granule_on_line = Ok [nan] ∧
    corrected_column h y dy = [nan] ∧
    eqb nan (fZ 200) = false.
Proof. do 3 eexists. repeat split; by vm_compute. Qed.

(** C2, amended: the corrected elevation of every segment is its raw
    elevation minus across-track offset times across-track slope, and the
    plot shows it for the segments whose quality flag is zero.  For a
    segment whose offset is zero and whose slope is finite the corrected
    elevation is the raw elevation (when the raw elevation is a zero, a
    zero of either sign); when the slope is infinite or not-a-number it
    is not-a-number. *)
Theorem C2_correction (Dl : table) (h y dy q : list float) (i : nat)
    (hi yi di : float) :
  Dl !! "h_li" = Some h → Dl !! "y_atc" = Some y → Dl !! "dh_fit_dy" = Some dy →
  Dl !! "atl06_quality_summary" = Some q →
  length y = length h → length dy = length h → length q = length h →
  h !! i = Some hi → y !! i = Some yi → dy !! i = Some di →
  atc_corr Dl = Ok (zip_with mul y dy) ∧
  corrected_elevation Dl
  = Ok (select (corrected_column h y dy) (map (λ x, eqb x zero) q)) ∧
  corrected_column h y dy !! i = Some (sub hi (mul yi di)) ∧
  (is_zero yi = true → is_finite di = true →
   sub hi (mul yi di) = hi
   ∨ (is_zero hi = true ∧ is_zero (sub hi (mul yi di)) = true)) ∧
  (is_zero yi = true → is_finite di = false → sub hi (mul yi di) = nan).
Proof.
  intros Hh Hy Hdy Hq Ly Ldy Lq Hhi Hyi Hdi. repeat split.
  - apply atc_corr_eq; [done..|]. by rewrite Ldy, Ly.
  - by apply corrected_elevation_eq.
  - by apply lookup_corrected_column.
  - intros Zy Fd. by apply corrected1_on_line.
  - intros Zy Fd. by apply corrected1_on_line_no_slope.
Qed.

Lemma C2_correction_witness :
  let h := [fZ 200; fZ 150; fZ 200] in
  let y := [fZ 0; fZ 3; fZ 50] in
  let dy := [dec 2 1000; dec 1 1000; dec 2 1000] in
  let q := [fZ 0; fZ 1; fZ 0] in
  atc_corr granule_pair = Ok (zip_with mul y dy) ∧
  corrected_elevation granule_pair
  = Ok (select (corrected_column h y dy) (map (λ x, eqb x zero) q)) ∧
  corrected_column h y dy !! 0%nat = Some (sub (fZ 200) (mul (fZ 0) (dec 2 1000))) ∧
  (is_zero (fZ 0) = true → is_finite (dec 2 1000) = true →
   sub (fZ 200) (mul (fZ 0) (dec 2 1000)) = fZ 200
   ∨ (is_zero (fZ 200) = true
      ∧ is_zero (sub (fZ 200) (mul (fZ 0) (dec 2 1000))) = true)) ∧
  (is_zero (fZ 0) = true → is_finite (dec 2 1000) = false →
   sub (fZ 200) (mul (fZ 0) (dec 2 1000)) = nan).
Proof.
  apply (C2_correction granule_pair
           [fZ 200; fZ 150; fZ 200] [fZ 0; fZ 3; fZ 50]
           [dec 2 1000; dec 1 1000; dec 2 1000] [fZ 0; fZ 1; fZ 0] 0
           (fZ 200) (fZ 0) (dec 2 1000)); reflexivity.
Defined.

(** The scenario of the specification: offset 50, slope 0.002 and raw
    elevation 200.0 give 199.9, and the flagged segment is left out. *)
Example corrected_elevation_granule_pair :
  corrected_elevation granule_pair = Ok [fZ 200; dec 1999 10].
Proof. by vm_compute. Qed.

End CorrectorStatements.

(** C4, as stated, fails: the quality flag of [sample_h5] is an integer
    dataset without a [_FillValue] attribute, and the reader returns it as
    the integer array it is. *)
Lemma C4_no_attribute_counterexample :
  atl06_to_dict sample_env sample_name "/gt2l" None None None = Ok sample_D ∧
  sample_D !! "atl06_quality_summary" = Some (VArr (IntArr [0; 1; 0]%Z)).
Proof. split; by_compute. Qed.

(** C4, amended: a requested dataset that has a [_FillValue] attribute is
    returned as a float64 array in which every entry equal to the fill
    value is not-a-number and every other entry is the cast of the raw
    entry; a requested dataset without the attribute is returned as it
    was read, not cast.  The dictionary is keyed by dataset name: the
    entry is that of the last group listing the name, and the names
    [rgt], [cycle], [beam] (and [x], [y] when [epsg] is given) hold what
    the reader adds itself. *)
Theorem C4_fill_to_nan E filename beam (fd : option fields) index epsg Dout key ds :
  atl06_to_dict E filename beam fd index epsg = Ok Dout →
  last_group (default default_field_dict fd) ds = Some key →
  ds ≠ "rgt" → ds ≠ "cycle" → ds ≠ "beam" →
  (epsg = None ∨ (ds ≠ "x" ∧ ds ≠ "y")) →
  ∃ h5f d,
    files E !! filename = Some h5f ∧ h5f !! ds_name beam key ds = Some d ∧
    let a := read_data index (ds_data d) in
    match ds_attrs d !! "_FillValue" with
    | Some fill =>
        ∃ xs, Dout !! ds = Some (VArr (FloatArr xs)) ∧
              length xs = arr_size a ∧
              ∀ i, (eq_fill a fill !! i = Some true → xs !! i = Some F64.nan) ∧
                   (eq_fill a fill !! i = Some false → xs !! i = astype_float a !! i)
    | None => Dout !! ds = Some (VArr a)
    end.
Proof.
  intros H Hlast H1 H2 H3 H4.
  destruct (atl06_to_dict_field _ _ _ _ _ _ _ _ _ H Hlast H1 H2 H3 H4)
    as (h5f & d & Hf & Hd & Hout).
  exists h5f, d. repeat split; try done. cbn zeta.
  unfold stored in Hout. destruct (ds_attrs d !! "_FillValue") as [fill|]; [|done].
  eexists. split; [exact Hout|]. split; [apply length_set_nan|].
  intros i. split; intros Hi.
  - apply lookup_set_nan_true; [|done].
    by rewrite length_eq_fill, length_astype_float.
  - by apply lookup_set_nan_false.
Qed.

Lemma C4_fill_to_nan_witness :
  ∃ h5f d,
    files sample_env !! sample_name = Some h5f ∧
    h5f !! ds_name "/gt2l" None "h_li" = Some d ∧
    let a := read_data None (ds_data d) in
    match ds_attrs d !! "_FillValue" with
    | Some fill =>
        ∃ xs, sample_D !! "h_li" = Some (VArr (FloatArr xs)) ∧
              length xs = arr_size a ∧
              ∀ i, (eq_fill a fill !! i = Some true → xs !! i = Some F64.nan) ∧
                   (eq_fill a fill !! i = Some false → xs !! i = astype_float a !! i)
    | None => sample_D !! "h_li" = Some (VArr a)
    end.
Proof.
  apply (C4_fill_to_nan sample_env sample_name "/gt2l" None None None sample_D
           None "h_li"); try by_compute. by left.
Defined.

(** C7, as stated, fails: the segment identifiers of [sample_h5] are
    integers with a fill value that none of them equals; the reader casts
    them to float64, and 9007199254740993 = 2^53 + 1 comes back as
    2^53. *)
Lemma C7_large_integer_counterexample :
  ∃ out,
    atl06_to_dict sample_env sample_name "/gt2l"
      (Some [(None, ["segment_id"])]) None None = Ok sample_ids ∧
    eq_fill (IntArr [9007199254740993; 2; 3]%Z) (IntVal (-1)) = [false; false; false] ∧
    sample_ids !! "segment_id" = Some (VArr (FloatArr out)) ∧
    to_Z <$> out = [Some 9007199254740992; Some 2; Some 3]%Z ∧
    ¬ same_values (IntArr [9007199254740993; 2; 3]%Z) (FloatArr out).
Proof.
  exists [fZ 9007199254740992; fZ 2; fZ 3]. repeat split; try by_compute.
  intros H. apply Forall2_cons_1 in H as [H _]. vm_compute in H. discriminate.
Qed.

(** C7, amended: with [epsg] unset, a requested dataset without entries
    equal to its fill value comes back with the values that were read:
    unchanged when it has no [_FillValue] attribute or holds
    floating-point numbers, and as the float64 numbers of the same value
    when it holds integers of magnitude at most 2^53 and has the
    attribute.  The entry is that of the last group listing the name, and
    the names [rgt], [cycle], [beam] hold what the reader adds itself. *)
Theorem C7_round_trip E filename beam (fd : option fields) index Dout key ds h5f d :
  atl06_to_dict E filename beam fd index None = Ok Dout →
  last_group (default default_field_dict fd) ds = Some key →
  ds ≠ "rgt" → ds ≠ "cycle" → ds ≠ "beam" →
  files E !! filename = Some h5f → h5f !! ds_name beam key ds = Some d →
  (∀ fill, ds_attrs d !! "_FillValue" = Some fill →
           Forall (λ b, b = false) (eq_fill (read_data index (ds_data d)) fill)) →
  (∀ zs, read_data index (ds_data d) = IntArr zs →
         is_Some (ds_attrs d !! "_FillValue") →
         Forall (λ z, Z.abs z ≤ 2 ^ 53)%Z zs) →
  ∃ out, Dout !! ds = Some (VArr out) ∧
         same_values (read_data index (ds_data d)) out.
Proof.
  intros H Hlast H1 H2 H3 Hf Hd Hnofill Hsmall.
  destruct (atl06_to_dict_field _ _ _ _ _ _ _ _ _ H Hlast H1 H2 H3 (or_introl eq_refl))
    as (h5f' & d' & Hf' & Hd' & Hout).
  assert (h5f' = h5f) as -> by congruence. assert (d' = d) as -> by congruence.
  exists (stored index d). split; [done|]. unfold stored.
  destruct (ds_attrs d !! "_FillValue") as [fill|] eqn:Ea; [|apply same_values_refl].
  unfold fill_to_nan. rewrite set_nan_none.
  - apply same_values_astype_float. intros zs Hzs. by apply Hsmall.
  - by rewrite length_eq_fill, length_astype_float.
  - intros b Hb. specialize (Hnofill fill eq_refl).
    by apply (proj1 (Forall_forall _ _) Hnofill).
Qed.

Lemma C7_round_trip_witness :
  ∃ out, sample_photons !! "n_fit_photons" = Some (VArr out) ∧
         same_values (read_data None (ds_data photons)) out.
Proof.
  apply (C7_round_trip sample_env sample_name "/gt2l"
           (Some [(Some "fit_statistics", ["n_fit_photons"])]) None sample_photons
           (Some "fit_statistics") "n_fit_photons" sample_h5 photons).
  - by_compute.
  - by_compute.
  - done.
  - done.
  - done.
  - by_compute.
  - by_compute.
  - intros fill Hfill. vm_compute in Hfill. injection Hfill as <-.
    vm_compute. repeat constructor.
  - intros zs Hzs _. vm_compute in Hzs. injection Hzs as <-.
    repeat constructor; by vm_compute.
Defined.

(** C5: when the opened file lacks a dataset that was asked for, the read
    raises [KeyError], whatever the beam, the fields, the index and the
    projection code.  In the loop over the files, which reads beam
    [/gt2l] with the default fields, such a file changes neither [D_dict]
    nor whether the loop runs to its end: both are those of the list
    without the file, and the file itself is no key of [D_dict].  The
    other files are read: when each of them returns or raises [KeyError]
    too, the loop runs to its end, the error of the file is printed, and
    [D_dict] holds exactly the other files whose read returned, each with
    what its read returned. *)
Theorem C5_missing_field_is_skipped E file h5f (l1 l2 : list string) :
  files E !! file = Some h5f →
  (∀ beam (fd : option fields) index epsg key dss ds,
     (key, dss) ∈ default default_field_dict fd → ds ∈ dss →
     h5f !! ds_name beam key ds = None →
     ∃ k, atl06_to_dict E file beam fd index epsg = Raise (KeyError k)) ∧
  (∀ key dss ds,
     (key, dss) ∈ default_field_dict → ds ∈ dss →
     h5f !! ds_name "/gt2l" key ds = None →
     let r := read_all E (l1 ++ file :: l2) in
     let r' := read_all E (l1 ++ l2) in
     D_dict r.1 = D_dict r'.1 ∧ r.2 = r'.2 ∧
     D_dict r.1 !! file = None ∧
     ((∀ f, f ∈ l1 ++ l2 →
         is_ok (batch_read E f) = true
         ∨ ∃ k, batch_read E f = Raise (KeyError k)) →
      r.2 = None ∧
      (∃ k, (file, KeyError k) ∈ printed r.1) ∧
      ∀ f D, D_dict r.1 !! f = Some D ↔
             f ∈ l1 ++ l2 ∧ batch_read E f = Ok D)).
Proof.
  intros Hf.
  assert (∀ beam (fd : option fields) index epsg key dss ds,
            (key, dss) ∈ default default_field_dict fd → ds ∈ dss →
            h5f !! ds_name beam key ds = None →
            ∃ k, atl06_to_dict E file beam fd index epsg = Raise (KeyError k))
    as Hraise.
  { intros beam fd index epsg key dss ds Hin Hds Hnone.
    unfold atl06_to_dict, h5py_File. rewrite Hf. cbn.
    destruct (read_fields_missing h5f beam index _ ∅ _ _ _ Hin Hds Hnone)
      as [k ->].
    by exists k. }
  split; [exact Hraise|].
  intros key dss ds Hin Hds Hnone.
  destruct (Hraise "/gt2l" None (Some slice_0_m1_25) (Some 3031%Z) key dss ds)
    as [k Hk]; [done..|].
  cbn zeta.
  destruct (read_files_skip E l1 l2 file k {| D_dict := ∅; printed := [] |} Hk)
    as [Hdict Hend].
  split; [exact Hdict|]. split; [exact Hend|]. split.
  - destruct (D_dict (read_all E (l1 ++ file :: l2)).1 !! file) as [D|] eqn:HD;
      [|done].
    apply read_files_lookup_inv in HD as [HD|[_ HD]].
    + cbn [D_dict] in HD. by rewrite lookup_empty in HD.
    + unfold batch_read in HD. congruence.
  - intros Hall.
    assert (∀ f, f ∈ l1 ++ file :: l2 →
              is_ok (batch_read E f) = true
              ∨ ∃ k, batch_read E f = Raise (KeyError k)) as Hall'.
    { intros f Hfin. apply elem_of_app in Hfin as [Hfin|Hfin].
      - apply Hall, elem_of_app. by left.
      - apply elem_of_cons in Hfin as [->|Hfin]; [right; by exists k|].
        apply Hall, elem_of_app. by right. }
    destruct (read_files_spec E (l1 ++ file :: l2)
                {| D_dict := ∅; printed := [] |} Hall') as [Hrun Hlookup].
    split; [exact Hrun|]. split.
    + exists k. apply read_files_prints; [exact Hall'| |exact Hk].
      apply elem_of_app. right. by left.
    + intros f D. unfold read_all. rewrite Hlookup. cbn [D_dict].
      rewrite lookup_empty.
      destruct (batch_read E f) as [Df|e] eqn:Ef; [|split; [done | by intros [_ ?]]].
      assert (f ≠ file) as Hne by (intros ->; unfold batch_read in Ef; congruence).
      assert (f ∈ l1 ++ file :: l2 ↔ f ∈ l1 ++ l2) as Hiff.
      { rewrite !elem_of_app, elem_of_cons. tauto. }
      destruct (decide (f ∈ l1 ++ file :: l2)) as [Hfin|Hout].
      * split; [intros [= ->]; tauto | by intros [_ [= ->]]].
      * split; [done | intros [? _]; tauto].
Qed.

Lemma C5_missing_field_is_skipped_witness :
  (∃ k, atl06_to_dict sample_env cloudy_name "/gt2l" None None None
        = Raise (KeyError k)) ∧
  D_dict (read_all sample_env ([sample_name] ++ cloudy_name :: [later_name])).1
  = D_dict (read_all sample_env ([sample_name] ++ [later_name])).1 ∧
  (read_all sample_env ([sample_name] ++ cloudy_name :: [later_name])).2
  = (read_all sample_env ([sample_name] ++ [later_name])).2 ∧
  D_dict (read_all sample_env ([sample_name] ++ cloudy_name :: [later_name])).1
    !! cloudy_name = None ∧
  (read_all sample_env ([sample_name] ++ cloudy_name :: [later_name])).2 = None ∧
  (∃ k, (cloudy_name, KeyError k)
        ∈ printed (read_all sample_env
                     ([sample_name] ++ cloudy_name :: [later_name])).1) ∧
  ∀ f D,
    D_dict (read_all sample_env ([sample_name] ++ cloudy_name :: [later_name])).1
      !! f = Some D ↔
    f ∈ [sample_name] ++ [later_name] ∧ batch_read sample_env f = Ok D.
Proof.
  destruct (C5_missing_field_is_skipped sample_env cloudy_name cloudy_h5
              [sample_name] [later_name]) as [Hraise Hskip]; [by_compute|].
  split.
  - apply (Hraise "/gt2l" None None None
             (Some "fit_statistics") ["dh_fit_dx"; "dh_fit_dy"] "dh_fit_dy");
      [simpl; repeat constructor | repeat constructor | by_compute].
  - destruct (Hskip (Some "fit_statistics") ["dh_fit_dx"; "dh_fit_dy"] "dh_fit_dy")
      as (Hdict & Hend & Hfile & Hothers);
      [repeat constructor | repeat constructor | by_compute |].
    split; [exact Hdict|]. split; [exact Hend|]. split; [exact Hfile|].
    apply Hothers. intros f Hfin. left.
    apply elem_of_cons in Hfin as [->|Hfin]; [by_compute|].
    apply list_elem_of_singleton in Hfin as ->. by_compute.
Defined.

(** C9: when the pattern finds no match in the file name the reader
    returns no dictionary: it raises.  When the file was read (and
    projected, if asked) without an exception, what it raises is the
    [TypeError] of subscripting the missing match. *)
Theorem C9_unparsed_name E filename beam (fd : option fields) index epsg :
  file_re_search filename = None →
  is_ok (atl06_to_dict E filename beam fd index epsg) = false ∧
  (∀ h5f D,
     files E !! filename = Some h5f →
     read_fields h5f beam index (default default_field_dict fd) ∅ = Ok D →
     (∀ code, epsg = Some code → is_ok (project E code D) = true) →
     atl06_to_dict E filename beam fd index epsg = Raise TypeError).
Proof.
  intros Hre. unfold atl06_to_dict. rewrite Hre. split.
  - destruct (h5py_File E filename ≫= _) as [D|e]; [|done]. cbn.
    destruct epsg as [code|]; [|done]. by destruct (project E code D).
  - intros h5f D Hf HD Hproj. unfold h5py_File. rewrite Hf. cbn. rewrite HD. cbn.
    destruct epsg as [code|]; [|done].
    specialize (Hproj code eq_refl). by destruct (project E code D).
Qed.

Lemma C9_unparsed_name_witness :
  is_ok (atl06_to_dict sample_env renamed_name "/gt2l" None None (Some 3031%Z)) = false ∧
  atl06_to_dict sample_env renamed_name "/gt2l" None None (Some 3031%Z) = Raise TypeError.
Proof.
  destruct (C9_unparsed_name sample_env renamed_name "/gt2l" None None (Some 3031%Z))
    as [Hfail Htype]; [by_compute|].
  split; [exact Hfail|].
  apply (Htype sample_h5 sample_fields); [by_compute | by_compute |].
  intros code [= <-]. by_compute.
Defined.

(** * Further properties *)

(** ** Drawing the segments *)

Section Ravel.
Context {A : Type}.
Implicit Types (r : list A).

Lemma length_ravel_T3 r0 r1 r2 :
  length r1 = length r0 → length r2 = length r0 →
  length (ravel_T3 r0 r1 r2) = (3 * length r0)%nat.
Proof.
  revert r1 r2. induction r0 as [|x0 r0 IH]; intros [|x1 r1] [|x2 r2] H1 H2;
    simpl in *; try done.
  rewrite IH by lia. lia.
Qed.

Lemma lookup_ravel_T3 r0 r1 r2 j :
  length r1 = length r0 → length r2 = length r0 →
  ravel_T3 r0 r1 r2 !! (3 * j)%nat = r0 !! j ∧
  ravel_T3 r0 r1 r2 !! (3 * j + 1)%nat = r1 !! j ∧
  ravel_T3 r0 r1 r2 !! (3 * j + 2)%nat = r2 !! j.
Proof.
  revert r1 r2 j. induction r0 as [|x0 r0 IH]; intros [|x1 r1] [|x2 r2] j H1 H2;
    try done.
  destruct j as [|j]; [done|].
  replace (3 * S j)%nat with (S (S (S (3 * j)))) by lia.
  replace (S (S (S (3 * j))) + 1)%nat with (S (S (S (3 * j + 1)))) by lia.
  replace (S (S (S (3 * j))) + 2)%nat with (S (S (S (3 * j + 2)))) by lia.
  cbn [ravel_T3].
  repeat match goal with
         | |- context [(?a :: ?l) !! S ?n] => change ((a :: l) !! S n) with (l !! n)
         end.
  apply IH; simpl in *; lia.
Qed.

Lemma select_all r n : n = length r → select r (replicate n true) = r.
Proof. intros ->. induction r as [|x r IH]; simpl; by rewrite ?IH. Qed.

Lemma length_select r good :
  length good = length r → length (select r good) = count_occ Bool.bool_dec good true.
Proof.
  revert good. induction r as [|x r IH]; intros [|[] good] H; simpl in *; try done.
  - rewrite IH by lia. done.
  - apply IH. lia.
Qed.

End Ravel.

Section PlotSegs.
Import F64 F64Facts.
Implicit Types (h s x : list float) (ind : list bool).

(** What [plot_segs] draws for columns and a mask of one length. *)
Lemma plot_segs_eq (D6 : table) h s x ind :
  D6 !! "h_li" = Some h → D6 !! "dh_fit_dx" = Some s → D6 !! "x_atc" = Some x →
  length h = length ind → length s = length ind → length x = length ind →
  plot_segs D6 (Some ind)
  = Ok (ravel_T3 (minus20 (select x ind)) (plus20 (select x ind))
          (replicate (length (select h ind)) nan),
        ravel_T3 (h_ep_0 (select h ind) (select s ind))
          (h_ep_1 (select h ind) (select s ind))
          (replicate (length (select h ind)) nan)).
Proof.
  intros Hh Hs Hx Lh Ls Lx. unfold plot_segs. cbn.
  rewrite (getitem_Some _ _ _ Hh). cbn.
  rewrite (mask_index_same h) by done. cbn.
  rewrite (getitem_Some _ _ _ Hs). cbn.
  rewrite (mask_index_same s) by done. cbn.
  assert (length (select s ind) = length (select h ind)) as Lsel
    by (apply length_select2; congruence).
  assert (length (select x ind) = length (select h ind)) as Lxsel
    by (apply length_select2; congruence).
  unfold np_sub, np_add.
  rewrite (broadcast2_same sub) by (by rewrite length_times20). cbn.
  rewrite fit_same
    by (rewrite length_zip_with, length_times20, Lsel; apply Nat.min_id). cbn.
  rewrite (broadcast2_same add) by (by rewrite length_times20). cbn.
  rewrite fit_same
    by (rewrite length_zip_with, length_times20, Lsel; apply Nat.min_id). cbn.
  rewrite (getitem_Some _ _ _ Hx). cbn.
  rewrite (mask_index_same x) by done. cbn.
  rewrite !fit_same by (unfold minus20, plus20; by rewrite length_fmap). cbn.
  done.
Qed.

Lemma plot_segs_None (D6 : table) h :
  D6 !! "h_li" = Some h →
  plot_segs D6 None = plot_segs D6 (Some (replicate (length h) true)).
Proof. intros Hh. unfold plot_segs. by rewrite (getitem_Some _ _ _ Hh). Qed.

Lemma plot_segs_None_eq (D6 : table) h s x :
  D6 !! "h_li" = Some h → D6 !! "dh_fit_dx" = Some s → D6 !! "x_atc" = Some x →
  length s = length h → length x = length h →
  plot_segs D6 None
  = Ok (ravel_T3 (minus20 x) (plus20 x) (replicate (length h) nan),
        ravel_T3 (h_ep_0 h s) (h_ep_1 h s) (replicate (length h) nan)).
Proof.
  intros Hh Hs Hx Ls Lx. rewrite (plot_segs_None D6 h Hh).
  rewrite (plot_segs_eq D6 h s x) by (by rewrite ?length_replicate).
  by rewrite (select_all h), (select_all s), (select_all x).
Qed.

(** X1: The drawn line of a granule: for the [j]-th segment that the mask
    keeps, the two ends of the segment and a not-a-number that breaks the
    line, in both arrays. *)
Theorem plot_segs_triples (D6 : table) h s x ind :
  D6 !! "h_li" = Some h → D6 !! "dh_fit_dx" = Some s → D6 !! "x_atc" = Some x →
  length h = length ind → length s = length ind → length x = length ind →
  ∃ X H,
    plot_segs D6 (Some ind) = Ok (X, H) ∧
    length X = (3 * count_occ Bool.bool_dec ind true)%nat ∧
    length H = (3 * count_occ Bool.bool_dec ind true)%nat ∧
    ∀ j hj sj xj,
      select h ind !! j = Some hj → select s ind !! j = Some sj →
      select x ind !! j = Some xj →
      X !! (3 * j)%nat = Some (sub xj f20) ∧
      X !! (3 * j + 1)%nat = Some (add xj f20) ∧
      X !! (3 * j + 2)%nat = Some nan ∧
      H !! (3 * j)%nat = Some (sub hj (mul sj f20)) ∧
      H !! (3 * j + 1)%nat = Some (add hj (mul sj f20)) ∧
      H !! (3 * j + 2)%nat = Some nan.
Proof.
  intros Hh Hs Hx Lh Ls Lx.
  assert (length (select s ind) = length (select h ind)) as Lsel
    by (apply length_select2; congruence).
  assert (length (select x ind) = length (select h ind)) as Lxsel
    by (apply length_select2; congruence).
  eexists _, _. split; [by apply plot_segs_eq|].
  split; [|split].
  - rewrite length_ravel_T3.
    + unfold minus20. rewrite length_fmap, Lxsel. by rewrite length_select.
    + unfold minus20, plus20. by rewrite !length_fmap.
    + unfold minus20. by rewrite length_replicate, length_fmap.
  - rewrite length_ravel_T3.
    + rewrite length_h_ep_0 by done. by rewrite length_select.
    + by rewrite length_h_ep_0, length_h_ep_1.
    + by rewrite length_replicate, length_h_ep_0.
  - intros j hj sj xj Hj Sj Xj.
    apply lookup_lt_Some in Hj as Hlt.
    destruct (lookup_ravel_T3 (minus20 (select x ind)) (plus20 (select x ind))
                (replicate (length (select h ind)) nan) j) as (X0 & X1 & X2).
    { unfold minus20, plus20. by rewrite !length_fmap. }
    { unfold minus20. by rewrite length_replicate, length_fmap. }
    destruct (lookup_ravel_T3 (h_ep_0 (select h ind) (select s ind))
                (h_ep_1 (select h ind) (select s ind))
                (replicate (length (select h ind)) nan) j) as (H0 & H1 & H2).
    { by rewrite length_h_ep_0, length_h_ep_1. }
    { by rewrite length_replicate, length_h_ep_0. }
    rewrite X0, X1, X2, H0, H1, H2.
    unfold minus20, plus20. rewrite !list_lookup_fmap, Xj.
    rewrite (lookup_h_ep_0 _ _ _ _ _ Hj Sj), (lookup_h_ep_1 _ _ _ _ _ Hj Sj).
    by rewrite lookup_replicate_2.
Qed.

Lemma plot_segs_triples_witness :
  ∃ X H,
    plot_segs granule_slopes (Some [true; false; true]) = Ok (X, H) ∧
    length X = (3 * count_occ Bool.bool_dec [true; false; true] true)%nat ∧
    length H = (3 * count_occ Bool.bool_dec [true; false; true] true)%nat ∧
    ∀ j hj sj xj,
      select [fZ 0; fZ 20; fZ 40] [true; false; true] !! j = Some hj →
      select [fZ 1; fZ 0; fZ 1] [true; false; true] !! j = Some sj →
      select [fZ 0; fZ 20; fZ 40] [true; false; true] !! j = Some xj →
      X !! (3 * j)%nat = Some (sub xj f20) ∧
      X !! (3 * j + 1)%nat = Some (add xj f20) ∧
      X !! (3 * j + 2)%nat = Some nan ∧
      H !! (3 * j)%nat = Some (sub hj (mul sj f20)) ∧
      H !! (3 * j + 1)%nat = Some (add hj (mul sj f20)) ∧
      H !! (3 * j + 2)%nat = Some nan.
Proof.
  apply (plot_segs_triples granule_slopes
           [fZ 0; fZ 20; fZ 40] [fZ 1; fZ 0; fZ 1] [fZ 0; fZ 20; fZ 40]
           [true; false; true]); reflexivity.
Defined.

(** X2: [plot_segs] draws exactly when the three columns are there and have
    the length of the mask. *)
Theorem plot_segs_ok_iff (D6 : table) ind :
  is_ok (plot_segs D6 (Some ind)) = true ↔
  ∃ h s x,
    D6 !! "h_li" = Some h ∧ D6 !! "dh_fit_dx" = Some s ∧ D6 !! "x_atc" = Some x ∧
    length h = length ind ∧ length s = length ind ∧ length x = length ind.
Proof.
  split.
  - unfold plot_segs, getitem, mask_index. cbn.
    destruct (D6 !! "h_li") as [h|]; [|done]. cbn.
    destruct (decide (length ind = length h)) as [Lh|]; [|done]. cbn.
    destruct (D6 !! "dh_fit_dx") as [s|]; [|done]. cbn.
    destruct (decide (length ind = length s)) as [Ls|]; [|done]. cbn.
    assert (length (select s ind) = length (select h ind)) as Lsel
      by (apply length_select2; congruence).
    unfold np_sub, np_add.
    rewrite (broadcast2_same sub) by (by rewrite length_times20). cbn.
    rewrite fit_same
      by (rewrite length_zip_with, length_times20, Lsel; apply Nat.min_id). cbn.
    rewrite (broadcast2_same add) by (by rewrite length_times20). cbn.
    rewrite fit_same
      by (rewrite length_zip_with, length_times20, Lsel; apply Nat.min_id). cbn.
    destruct (D6 !! "x_atc") as [x|]; [|done]. cbn.
    destruct (decide (length ind = length x)) as [Lx|]; [|done].
    intros _. by exists h, s, x.
  - intros (h & s & x & Hh & Hs & Hx & Lh & Ls & Lx).
    by rewrite (plot_segs_eq D6 h s x).
Qed.

(** X3: The score of a segment with two neighbours, read off the drawing: the
    smaller of the gaps between its elevation and the drawn end of the
    previous segment, and between its elevation and the drawn start of the
    next one. *)
Theorem score_from_drawn_endpoints (D6 : table) h s x i (hi : float) :
  D6 !! "h_li" = Some h → D6 !! "dh_fit_dx" = Some s → D6 !! "x_atc" = Some x →
  length s = length h → length x = length h →
  h !! S i = Some hi → (S (S i) < length h)%nat →
  ∃ X H sc end_prev start_next,
    plot_segs D6 None = Ok (X, H) ∧ min_seg_difference D6 = Ok sc ∧
    H !! (3 * i + 1)%nat = Some end_prev ∧
    H !! (3 * S (S i))%nat = Some start_next ∧
    sc !! S i = Some (minimum (abs (sub hi end_prev)) (abs (sub hi start_next))).
Proof.
  intros Hh Hs Hx Ls Lx Hi Hlt.
  destruct (lookup_lt_is_Some_2 h i) as [hp Hp]; [lia|].
  destruct (lookup_lt_is_Some_2 h (S (S i))) as [hn Hn]; [lia|].
  destruct (lookup_lt_is_Some_2 s i) as [sp Hsp]; [lia|].
  destruct (lookup_lt_is_Some_2 s (S (S i))) as [sn Hsn]; [lia|].
  destruct (score_interior D6 h s i hp hi hn sp sn) as (sc & Hsc & _ & Hscore);
    try done.
  eexists _, _, sc, (add hp (mul sp f20)), (sub hn (mul sn f20)).
  split; [by apply plot_segs_None_eq|]. split; [done|].
  destruct (lookup_ravel_T3 (h_ep_0 h s) (h_ep_1 h s) (replicate (length h) nan) i)
    as (_ & H1 & _).
  { by rewrite length_h_ep_0, length_h_ep_1. }
  { by rewrite length_replicate, length_h_ep_0. }
  destruct (lookup_ravel_T3 (h_ep_0 h s) (h_ep_1 h s) (replicate (length h) nan)
              (S (S i))) as (H0 & _ & _).
  { by rewrite length_h_ep_0, length_h_ep_1. }
  { by rewrite length_replicate, length_h_ep_0. }
  rewrite H1, H0.
  rewrite (lookup_h_ep_1 _ _ _ _ _ Hp Hsp), (lookup_h_ep_0 _ _ _ _ _ Hn Hsn).
  done.
Qed.

Lemma score_from_drawn_endpoints_witness :
  ∃ X H sc end_prev start_next,
    plot_segs granule_slopes None = Ok (X, H) ∧
    min_seg_difference granule_slopes = Ok sc ∧
    H !! (3 * 0 + 1)%nat = Some end_prev ∧
    H !! (3 * 2)%nat = Some start_next ∧
    sc !! 1%nat = Some (minimum (abs (sub (fZ 20) end_prev))
                          (abs (sub (fZ 20) start_next))).
Proof.
  apply (score_from_drawn_endpoints granule_slopes
           [fZ 0; fZ 20; fZ 40] [fZ 1; fZ 0; fZ 1] [fZ 0; fZ 20; fZ 40] 0 (fZ 20));
    (reflexivity || (simpl; lia)).
Defined.

End PlotSegs.

(** ** More on the consistency score *)

Section ScoreMore.
Import F64 F64Facts.
Implicit Types (h s : list float).

Lemma zip_with_replicate_r {A B C} (f : A → B → C) (xs : list A) (y : B) :
  zip_with f xs (replicate (length xs) y) = (λ x, f x y) <$> xs.
Proof. induction xs as [|x xs IH]; simpl; by rewrite ?IH. Qed.

(** One operand of a single element is stretched over the other. *)
Lemma broadcast2_single_r {A} (f : A → A → A) (xs : list A) (y : A) :
  broadcast2 f xs [y] = Ok (zip_with f xs (replicate (length xs) y)).
Proof.
  unfold broadcast2. destruct xs as [|x [|x' xs]]; try done.
  rewrite decide_False by (simpl; lia).
  by rewrite zip_with_replicate_r.
Qed.

Lemma times20_replicate n (y : float) :
  times20 (replicate n y) = replicate n (mul y f20).
Proof. unfold times20. by rewrite fmap_replicate. Qed.

(** A slope column of one element counts for every segment. *)
Lemma min_seg_difference_single (D6 : table) h (y : float) :
  D6 !! "h_li" = Some h → D6 !! "dh_fit_dx" = Some [y] →
  min_seg_difference D6 = Ok (delta_second h (replicate (length h) y)).
Proof.
  intros Hh Hs.
  rewrite <- (min_seg_difference_eq (<["dh_fit_dx" := replicate (length h) y]> D6)
                h (replicate (length h) y));
    [|by rewrite lookup_insert_ne|by rewrite lookup_insert_eq
     |by rewrite length_replicate].
  unfold min_seg_difference, getitem.
  rewrite (lookup_insert_ne _ "dh_fit_dx" "h_li") by done.
  rewrite Hh, Hs, lookup_insert_eq. cbn.
  unfold np_sub, np_add.
  rewrite !(broadcast2_same _ h (times20 (replicate _ _)))
    by (by rewrite length_times20, length_replicate).
  change (times20 [y]) with [mul y f20].
  rewrite !broadcast2_single_r. by rewrite times20_replicate.
Qed.

Lemma min_seg_difference_shape_error (D6 : table) h s :
  D6 !! "h_li" = Some h → D6 !! "dh_fit_dx" = Some s →
  length s ≠ length h → length s ≠ 1%nat →
  min_seg_difference D6 = Raise ValueError.
Proof.
  intros Hh Hs L1 L2. unfold min_seg_difference, getitem. rewrite Hh, Hs. cbn.
  unfold np_sub, broadcast2. rewrite length_times20.
  rewrite decide_False by done.
  destruct h as [|x [|x' h]], s as [|y [|y' s]]; simpl in *; try done; try lia.
Qed.

(** X4: When [min_seg_difference] returns and what it raises: a [KeyError] for
    a missing column, elevations first; a [ValueError] when the slopes are
    neither as many as the elevations nor a single one; one score for every
    elevation otherwise. *)
Theorem min_seg_difference_outcome (D6 : table) :
  match D6 !! "h_li", D6 !! "dh_fit_dx" with
  | None, _ => min_seg_difference D6 = Raise (KeyError "h_li")
  | Some h, None => min_seg_difference D6 = Raise (KeyError "dh_fit_dx")
  | Some h, Some s =>
      if decide (length s = length h ∨ length s = 1%nat)
      then ∃ sc, min_seg_difference D6 = Ok sc ∧ length sc = length h
      else min_seg_difference D6 = Raise ValueError
  end.
Proof.
  destruct (D6 !! "h_li") as [h|] eqn:Hh.
  - destruct (D6 !! "dh_fit_dx") as [s|] eqn:Hs.
    + case_decide as Hlen.
      * destruct (decide (length s = length h)) as [Heq|Hne].
        -- exists (delta_second h s).
           split; [by apply min_seg_difference_eq | by apply length_delta_second].
        -- destruct Hlen as [|H1]; [done|].
           destruct s as [|y [|y' s]]; try done.
           exists (delta_second h (replicate (length h) y)).
           split; [by apply min_seg_difference_single|].
           apply length_delta_second. by rewrite length_replicate.
      * apply (min_seg_difference_shape_error D6 h s); [done..| |]; tauto.
    + unfold min_seg_difference, getitem. by rewrite Hh, Hs.
  - unfold min_seg_difference, getitem. by rewrite Hh.
Qed.

(** X5: The scores of a granule with one slope are those of the granule in
    which every segment has that slope. *)
Theorem min_seg_difference_one_slope (D6 : table) h (y : float) :
  D6 !! "h_li" = Some h → D6 !! "dh_fit_dx" = Some [y] →
  min_seg_difference D6
  = min_seg_difference (<["dh_fit_dx" := replicate (length h) y]> D6).
Proof.
  intros Hh Hs. rewrite (min_seg_difference_single D6 h y) by done.
  symmetry. apply min_seg_difference_eq.
  - by rewrite lookup_insert_ne.
  - by rewrite lookup_insert_eq.
  - by rewrite length_replicate.
Qed.

Lemma min_seg_difference_one_slope_witness :
  min_seg_difference granule_one_slope
  = min_seg_difference
      (<["dh_fit_dx" := replicate (length [fZ 0; fZ 20; fZ 40]) (fZ 1)]>
         granule_one_slope).
Proof.
  apply (min_seg_difference_one_slope granule_one_slope
           [fZ 0; fZ 20; fZ 40] (fZ 1)); reflexivity.
Defined.

End ScoreMore.

(** ** The order of binary64 numbers *)

Section Order.
Import F64 F64Facts.

Lemma SFcompare_antisym (a b : float) :
  SFcompare b a = CompOpp <$> SFcompare a b.
Proof.
  destruct a as [sa|sa| |sa ma ea], b as [sb|sb| |sb mb eb]; simpl; try done;
    try (by destruct sa); try (by destruct sb); try (by destruct sa, sb).
  destruct sa, sb; simpl; try done.
  - rewrite (Z.compare_antisym ea eb).
    destruct (ea ?= eb)%Z; simpl; try done.
    by rewrite !Pos.compare_cont_antisym.
  - rewrite (Z.compare_antisym ea eb).
    destruct (ea ?= eb)%Z; simpl; try done.
    by rewrite Pos.compare_cont_antisym.
Qed.

Lemma SFcompare_refl (a : float) : is_nan a = false → SFcompare a a = Some Eq.
Proof.
  destruct a as [sa|sa| |sa ma ea]; simpl; try done; try (by destruct sa).
  intros _. rewrite Z.compare_refl, Pos.compare_cont_refl. by destruct sa.
Qed.

Lemma leb_refl (a : float) : is_nan a = false → leb a a = true.
Proof. intros H. unfold leb, SFleb. by rewrite SFcompare_refl. Qed.

Lemma SFcompare_is_Some (a b : float) :
  is_nan a = false → is_nan b = false → is_Some (SFcompare a b).
Proof. destruct a, b; simpl; try done; eauto. Qed.

Lemma leb_total (a b : float) :
  is_nan a = false → is_nan b = false → leb a b = false → leb b a = true.
Proof.
  intros Ha Hb. unfold leb, SFleb. rewrite (SFcompare_antisym a b).
  destruct (SFcompare_is_Some a b Ha Hb) as [c ->]. by destruct c.
Qed.

(** [np.minimum] of two numbers is below both. *)
Lemma minimum_lower_bound (a b : float) :
  is_nan a = false → is_nan b = false →
  leb (minimum a b) a = true ∧ leb (minimum a b) b = true.
Proof.
  intros Ha Hb. unfold minimum. rewrite Ha.
  destruct (leb a b) eqn:E.
  - by rewrite leb_refl.
  - rewrite leb_refl by done. by rewrite leb_total.
Qed.

End Order.

Section ScoreLocal.
Import F64 F64Facts.
Implicit Types (h s : list float).

Lemma delta_first_local h s h' s' i :
  length s = length h → length s' = length h' → length h' = length h →
  (∀ j, j = i ∨ S j = i → h !! j = h' !! j) →
  (∀ j, S j = i → s !! j = s' !! j) →
  delta_first h s !! i = delta_first h' s' !! i.
Proof.
  intros Ls Ls' Lh Hh Hs.
  destruct (decide (i < length h)%nat) as [Hlt|Hge]; cycle 1.
  { rewrite !lookup_ge_None_2; [done| |]; rewrite length_delta_first by done; lia. }
  destruct (lookup_lt_is_Some_2 h i) as [hi Hi]; [lia|].
  destruct i as [|p].
  - rewrite (lookup_delta_first_0 h s hi Hi).
    rewrite (lookup_delta_first_0 h' s' hi); [done|]. by rewrite <- Hh by auto.
  - destruct (lookup_lt_is_Some_2 h p) as [hp Hp]; [lia|].
    destruct (lookup_lt_is_Some_2 s p) as [sp Hsp]; [lia|].
    rewrite (lookup_delta_first_S h s p hp hi sp) by done.
    rewrite (lookup_delta_first_S h' s' p hp hi sp); [done|done|..].
    + by rewrite <- Hh by auto.
    + by rewrite <- Hh by auto.
    + by rewrite <- Hs by auto.
Qed.

Lemma delta_second_local h s h' s' i :
  length s = length h → length s' = length h' → length h' = length h →
  (∀ j, j = i ∨ S j = i ∨ j = S i → h !! j = h' !! j) →
  (∀ j, S j = i ∨ j = S i → s !! j = s' !! j) →
  delta_second h s !! i = delta_second h' s' !! i.
Proof.
  intros Ls Ls' Lh Hh Hs.
  assert (delta_first h s !! i = delta_first h' s' !! i) as Hfirst.
  { apply delta_first_local; try done.
    - intros j Hj. apply Hh. tauto.
    - intros j Hj. apply Hs. tauto. }
  destruct (decide (i < length h)%nat) as [Hlt|Hge]; cycle 1.
  { rewrite !lookup_ge_None_2; [done| |]; rewrite length_delta_second by done; lia. }
  destruct (decide (length h = S i)) as [Hlast|Hin].
  - rewrite !lookup_delta_second_last by (done || lia). done.
  - destruct (lookup_lt_is_Some_2 (delta_first h s) i) as [a Ha].
    { rewrite length_delta_first by done. lia. }
    destruct (lookup_lt_is_Some_2 h i) as [hi Hi]; [lia|].
    destruct (lookup_lt_is_Some_2 h (S i)) as [hn Hn]; [lia|].
    destruct (lookup_lt_is_Some_2 s (S i)) as [sn Hsn]; [lia|].
    rewrite (lookup_delta_second_inner h s i a hi hn sn) by done.
    rewrite (lookup_delta_second_inner h' s' i a hi hn sn); [done|done|..].
    + by rewrite <- Hfirst.
    + by rewrite <- Hh by auto.
    + by rewrite <- Hh by auto.
    + by rewrite <- Hs by auto.
Qed.

(** X6: The score of a segment is settled by the elevations of the segment and
    of its two neighbours and by the slopes of the two neighbours: two
    granules of one length that agree on these give the segment the same
    score. *)
Theorem score_is_local (D6 D6' : table) h s h' s' (i : nat) :
  D6 !! "h_li" = Some h → D6 !! "dh_fit_dx" = Some s →
  D6' !! "h_li" = Some h' → D6' !! "dh_fit_dx" = Some s' →
  length s = length h → length s' = length h' → length h' = length h →
  (∀ j, j = i ∨ S j = i ∨ j = S i → h !! j = h' !! j) →
  (∀ j, S j = i ∨ j = S i → s !! j = s' !! j) →
  ∃ sc sc', min_seg_difference D6 = Ok sc ∧ min_seg_difference D6' = Ok sc' ∧
            sc !! i = sc' !! i.
Proof.
  intros Hh Hs Hh' Hs' Ls Ls' Lh Ah As.
  exists (delta_second h s), (delta_second h' s').
  split; [by apply min_seg_difference_eq|].
  split; [by apply min_seg_difference_eq|].
  by apply delta_second_local.
Qed.

Lemma score_is_local_witness :
  ∃ sc sc', min_seg_difference granule_four = Ok sc ∧
            min_seg_difference granule_four_far = Ok sc' ∧
            sc !! 0%nat = sc' !! 0%nat.
Proof.
  apply (score_is_local granule_four granule_four_far
           [fZ 0; fZ 20; fZ 40; fZ 60] [fZ 1; fZ 0; fZ 1; fZ 2]
           [fZ 0; fZ 20; fZ 75; fZ 90] [fZ 3; fZ 0; fZ 7; fZ 9] 0);
    try reflexivity.
  - intros j [->|[Hj| ->]]; [reflexivity | lia | reflexivity].
  - intros j [Hj| ->]; [lia | reflexivity].
Defined.

(** X7: The two ends of a granule of several segments: the first score is zero,
    or not-a-number when the comparison with the second segment is; the
    last score is the comparison with the segment before it. *)
Theorem edge_scores (D6 : table) h s (n : nat) (h0 h1 s1 hp hl sp : float) :
  D6 !! "h_li" = Some h → D6 !! "dh_fit_dx" = Some s → length s = length h →
  length h = S (S n) →
  h !! 0%nat = Some h0 → h !! 1%nat = Some h1 → s !! 1%nat = Some s1 →
  h !! n = Some hp → h !! S n = Some hl → s !! n = Some sp →
  ∃ sc, min_seg_difference D6 = Ok sc ∧
        sc !! 0%nat = Some (if is_nan (from_next h0 h1 s1) then nan else zero) ∧
        sc !! S n = Some (from_prev hl hp sp).
Proof.
  intros Hh Hs Ls Ln H0 H1 S1 Hp Hl Sp.
  exists (delta_second h s). split; [by apply min_seg_difference_eq|]. split.
  - rewrite (lookup_delta_second_inner h s 0 zero h0 h1 s1); try done.
    + f_equal. unfold from_next.
      destruct (sub h0 (sub h1 (mul s1 f20))) as [[]|[]| |[] m e]; done.
    + by apply lookup_delta_first_0 with h0.
  - rewrite lookup_delta_second_last by done.
    by apply lookup_delta_first_S.
Qed.

Lemma edge_scores_witness :
  ∃ sc, min_seg_difference granule_step = Ok sc ∧
        sc !! 0%nat
        = Some (if is_nan (from_next (fZ 0) (fZ 100) (fZ 0)) then nan else zero) ∧
        sc !! 1%nat = Some (from_prev (fZ 100) (fZ 0) (fZ 0)).
Proof.
  apply (edge_scores granule_step [fZ 0; fZ 100] [fZ 0; fZ 0] 0
           (fZ 0) (fZ 100) (fZ 0) (fZ 0) (fZ 100) (fZ 0)); reflexivity.
Defined.

(** X8: The score of a segment with two neighbours, when it is a number, is
    at most each of the two comparisons. *)
Theorem score_lower_bound (D6 : table) h s (i : nat) (hp hi hn sp sn : float) :
  D6 !! "h_li" = Some h → D6 !! "dh_fit_dx" = Some s → length s = length h →
  h !! i = Some hp → h !! S i = Some hi → h !! S (S i) = Some hn →
  s !! i = Some sp → s !! S (S i) = Some sn →
  is_nan (from_prev hi hp sp) = false → is_nan (from_next hi hn sn) = false →
  ∃ sc x, min_seg_difference D6 = Ok sc ∧ sc !! S i = Some x ∧
          leb x (from_prev hi hp sp) = true ∧ leb x (from_next hi hn sn) = true.
Proof.
  intros Hh Hs Ls Hp Hi Hn Sp Sn Np Nn.
  destruct (score_interior D6 h s i hp hi hn sp sn) as (sc & Hsc & _ & Hscore);
    try done.
  exists sc, (minimum (from_prev hi hp sp) (from_next hi hn sn)).
  split; [done|]. split; [done|]. by apply minimum_lower_bound.
Qed.

Lemma score_lower_bound_witness :
  ∃ sc x, min_seg_difference granule_slopes = Ok sc ∧ sc !! 1%nat = Some x ∧
          leb x (from_prev (fZ 20) (fZ 0) (fZ 1)) = true ∧
          leb x (from_next (fZ 20) (fZ 40) (fZ 1)) = true.
Proof.
  apply (score_lower_bound granule_slopes
           [fZ 0; fZ 20; fZ 40] [fZ 1; fZ 0; fZ 1] 0
           (fZ 0) (fZ 20) (fZ 40) (fZ 1) (fZ 1)); reflexivity.
Defined.

(** X23: for a segment with a predecessor and a successor the score
    returned is the minimum of the absolute difference between its elevation
    and the predecessor's elevation extrapolated forward by 20 with the
    predecessor's slope, and the absolute difference between its
    elevation and the successor's elevation extrapolated backward by 20
    with the successor's slope.  The score is not-a-number or at least
    zero, and at least zero when the three elevations and the two slopes
    are finite. *)
Theorem interior_score (D6 : table) (h s : list float) (i : nat)
    (hp hi hn sp sn : float) :
  D6 !! "h_li" = Some h → D6 !! "dh_fit_dx" = Some s → length s = length h →
  h !! i = Some hp → h !! S i = Some hi → h !! S (S i) = Some hn →
  s !! i = Some sp → s !! S (S i) = Some sn →
  let score := minimum (from_prev hi hp sp) (from_next hi hn sn) in
  (∃ sc, min_seg_difference D6 = Ok sc ∧ length sc = length h ∧
         sc !! S i = Some score) ∧
  (is_nan score = true ∨ nonneg score = true) ∧
  (is_finite hp = true → is_finite hi = true → is_finite hn = true →
   is_finite sp = true → is_finite sn = true → nonneg score = true).
Proof.
  intros HD Hs Hlen Hp Hi Hn Hsp Hsn score.
  split; [by eapply score_interior|]. split.
  - subst score. rewrite <- (negb_involutive (is_nan _)), minimum_is_nan.
    unfold from_prev, from_next. rewrite !abs_is_nan.
    destruct (is_nan (sub hi (add hp _))) eqn:E1; [by left|].
    destruct (is_nan (sub hi (sub hn _))) eqn:E2; [by left|].
    right. apply minimum_nonneg; by apply abs_nonneg.
  - intros Fp Fi Fn Fsp Fsn. subst score.
    apply minimum_nonneg; [by apply from_prev_finite | by apply from_next_finite].
Qed.

Lemma interior_score_witness :
  let score := minimum (from_prev (fZ 20) (fZ 0) (fZ 1)) (from_next (fZ 20) (fZ 40) (fZ 1)) in
  (∃ sc, min_seg_difference granule_slopes = Ok sc ∧ length sc = 3%nat ∧
         sc !! 1%nat = Some score) ∧
  (is_nan score = true ∨ nonneg score = true) ∧
  (is_finite (fZ 0) = true → is_finite (fZ 20) = true → is_finite (fZ 40) = true →
   is_finite (fZ 1) = true → is_finite (fZ 1) = true → nonneg score = true).
Proof.
  apply (interior_score granule_slopes
           [fZ 0; fZ 20; fZ 40] [fZ 1; fZ 0; fZ 1] 0
           (fZ 0) (fZ 20) (fZ 40) (fZ 1) (fZ 1)); reflexivity.
Defined.

(** X24: in a granule of two segments or more, an elevation that is
    not-a-number makes the score of its segment and of each immediate
    neighbour not-a-number; an along-track slope that is not-a-number
    makes the score of each immediate neighbour not-a-number; and the
    corrected elevation of a segment is not-a-number when its elevation,
    its across-track offset or its across-track slope is. *)
Theorem nan_propagation (D : table) (h s y dy q : list float) (i : nat) :
  D !! "h_li" = Some h → D !! "dh_fit_dx" = Some s →
  D !! "y_atc" = Some y → D !! "dh_fit_dy" = Some dy →
  D !! "atl06_quality_summary" = Some q →
  length s = length h → length y = length h → length dy = length h →
  length q = length h → (2 ≤ length h)%nat →
  (∃ sc, min_seg_difference D = Ok sc ∧
     (h !! i = Some nan →
      ∀ j, j = i ∨ j = S i ∨ S j = i → (j < length h)%nat → sc !! j = Some nan) ∧
     (s !! i = Some nan →
      ∀ j, j = S i ∨ S j = i → (j < length h)%nat → sc !! j = Some nan)) ∧
  corrected_elevation D
  = Ok (select (corrected_column h y dy) (map (λ x, eqb x zero) q)) ∧
  (∀ hi yi di,
     h !! i = Some hi → y !! i = Some yi → dy !! i = Some di →
     is_nan hi || is_nan yi || is_nan di = true →
     corrected_column h y dy !! i = Some nan).
Proof.
  intros Hh Hs Hy Hdy Hq Ls Ly Ldy Lq H2. split; [|split].
  - exists (delta_second h s). split; [by apply min_seg_difference_eq|]. split.
    + intros Hi j Hj Hlt. by eapply score_nan_elevation.
    + intros Hi j Hj Hlt. by eapply score_nan_slope.
  - by apply corrected_elevation_eq.
  - intros hi yi di Hhi Hyi Hdi Hnan.
    rewrite (lookup_corrected_column _ _ _ _ _ _ _ Hhi Hyi Hdi).
    by rewrite corrected1_nan.
Qed.

Lemma nan_propagation_witness :
  let h := [fZ 0; nan; fZ 0; fZ 0] in
  let s := [fZ 0; fZ 0; nan; fZ 0] in
  let y := [fZ 1; fZ 1; fZ 1; fZ 1] in
  let dy := [fZ 0; nan; fZ 0; fZ 0] in
  let q := [fZ 0; fZ 0; fZ 0; fZ 0] in
  ((∃ sc, min_seg_difference granule_gaps = Ok sc ∧
      (h !! 1%nat = Some nan →
       ∀ j, j = 1%nat ∨ j = 2%nat ∨ S j = 1%nat → (j < length h)%nat →
            sc !! j = Some nan) ∧
      (s !! 1%nat = Some nan →
       ∀ j, j = 2%nat ∨ S j = 1%nat → (j < length h)%nat → sc !! j = Some nan)) ∧
   corrected_elevation granule_gaps
   = Ok (select (corrected_column h y dy) (map (λ x, eqb x zero) q)) ∧
   (∀ hi yi di,
      h !! 1%nat = Some hi → y !! 1%nat = Some yi → dy !! 1%nat = Some di →
      is_nan hi || is_nan yi || is_nan di = true →
      corrected_column h y dy !! 1%nat = Some nan)) ∧
  ((∃ sc, min_seg_difference granule_gaps = Ok sc ∧
      (h !! 2%nat = Some nan →
       ∀ j, j = 2%nat ∨ j = 3%nat ∨ S j = 2%nat → (j < length h)%nat →
            sc !! j = Some nan) ∧
      (s !! 2%nat = Some nan →
       ∀ j, j = 3%nat ∨ S j = 2%nat → (j < length h)%nat → sc !! j = Some nan)) ∧
   corrected_elevation granule_gaps
   = Ok (select (corrected_column h y dy) (map (λ x, eqb x zero) q)) ∧
   (∀ hi yi di,
      h !! 2%nat = Some hi → y !! 2%nat = Some yi → dy !! 2%nat = Some di →
      is_nan hi || is_nan yi || is_nan di = true →
      corrected_column h y dy !! 2%nat = Some nan)).
Proof.
  split.
  - apply (nan_propagation granule_gaps
             [fZ 0; nan; fZ 0; fZ 0] [fZ 0; fZ 0; nan; fZ 0]
             [fZ 1; fZ 1; fZ 1; fZ 1] [fZ 0; nan; fZ 0; fZ 0]
             [fZ 0; fZ 0; fZ 0; fZ 0] 1); (reflexivity || (simpl; lia)).
  - apply (nan_propagation granule_gaps
             [fZ 0; nan; fZ 0; fZ 0] [fZ 0; fZ 0; nan; fZ 0]
             [fZ 1; fZ 1; fZ 1; fZ 1] [fZ 0; nan; fZ 0; fZ 0]
             [fZ 0; fZ 0; fZ 0; fZ 0] 2); (reflexivity || (simpl; lia)).
Defined.

End ScoreLocal.

(** ** File names *)

Section FileNames.

Lemma append_nil_l (s : string) : "" +:+ s = s.
Proof. done. Qed.

Lemma append_cons c (a s : string) : String c a +:+ s = String c (a +:+ s).
Proof. done. Qed.

Lemma append_nil_r (s : string) : s +:+ "" = s.
Proof. induction s as [|c s IH]; [done|]. by rewrite append_cons, IH. Qed.

Lemma append_assoc (a b c : string) : (a +:+ b) +:+ c = a +:+ (b +:+ c).
Proof.
  induction a as [|x a IH]; [done|]. by rewrite !append_cons, IH.
Qed.

Lemma all_digits_cons c s : all_digits (String c s) = is_digit c && all_digits s.
Proof. done. Qed.

Lemma expect_append lit s : expect lit (lit +:+ s) = Some s.
Proof.
  induction lit as [|a lit IH].
  - rewrite append_nil_l. by destruct s.
  - rewrite append_cons. simpl. by rewrite Ascii.eqb_refl.
Qed.

Lemma digits_append n d rest :
  all_digits d = true → String.length d = n →
  digits n (d +:+ rest) = Some (d, rest).
Proof.
  revert d. induction n as [|n IH]; intros [|c d] Hd Hn; try done.
  rewrite append_cons. rewrite all_digits_cons in Hd.
  apply andb_prop in Hd as [Hc Hd]. simpl in Hn. simpl.
  rewrite Hc, IH; [done|done|lia].
Qed.

Lemma skip_digits_append d c rest :
  all_digits d = true → is_digit c = false →
  skip_digits (d +:+ String c rest) = String c rest.
Proof.
  induction d as [|a d IH]; intros Hd Hc.
  - rewrite append_nil_l. simpl. by rewrite Hc.
  - rewrite append_cons. rewrite all_digits_cons in Hd.
    apply andb_prop in Hd as [Ha Hd]. simpl. rewrite Ha. by apply IH.
Qed.

Lemma digits1_append d c rest :
  all_digits d = true → d ≠ ""%string → is_digit c = false →
  digits1 (d +:+ String c rest) = Some (String c rest).
Proof.
  destruct d as [|a d]; [done|]. intros Hd _ Hc. rewrite append_cons. simpl.
  rewrite all_digits_cons in Hd. apply andb_prop in Hd as [Ha Hd].
  rewrite Ha. by rewrite skip_digits_append.
Qed.

Lemma digits1_append_underscore d rest :
  all_digits d = true → d ≠ ""%string →
  digits1 (d +:+ "_" +:+ rest) = Some ("_" +:+ rest).
Proof.
  intros Hd Hne. change ("_" +:+ rest) with (String "_" rest).
  by apply digits1_append.
Qed.

(** What the pattern matches it matches as digits of the right number. *)
Lemma digits_Some n s d rest :
  digits n s = Some (d, rest) →
  all_digits d = true ∧ String.length d = n ∧ s = d +:+ rest.
Proof.
  revert s d rest. induction n as [|n IH]; intros s d rest; simpl.
  - by intros [= <- <-].
  - destruct s as [|c s]; [done|].
    destruct (is_digit c) eqn:Hc; [|done].
    destruct (digits n s) as [[d' r']|] eqn:E; [|done].
    intros [= <- <-]. destruct (IH _ _ _ E) as (H1 & H2 & ->).
    rewrite all_digits_cons, Hc, H1. simpl. by rewrite H2.
Qed.

Lemma match_here_groups s m :
  match_here s = Some m →
  all_digits (rgt m) = true ∧ String.length (rgt m) = 4%nat ∧
  all_digits (cycle m) = true ∧ String.length (cycle m) = 2%nat.
Proof.
  unfold match_here. intros H.
  apply bind_Some in H as (s1 & _ & H).
  apply bind_Some in H as (s2 & _ & H).
  apply bind_Some in H as (s3 & _ & H).
  apply bind_Some in H as ([g_rgt s4] & E4 & H).
  apply bind_Some in H as ([g_cycle s5] & E2 & H).
  apply bind_Some in H as ([g_region s6] & _ & H).
  apply bind_Some in H as (s7 & _ & H).
  apply bind_Some in H as ([g_rel s8] & _ & H).
  apply bind_Some in H as (s9 & _ & H).
  apply bind_Some in H as ([g_ver s10] & _ & H).
  apply bind_Some in H as (s11 & _ & H).
  apply bind_Some in H as (s12 & _ & H).
  injection H as <-. cbn.
  destruct (digits_Some _ _ _ _ E4) as (? & ? & _).
  destruct (digits_Some _ _ _ _ E2) as (? & ? & _). done.
Qed.

Lemma file_re_search_Some s m :
  file_re_search s = Some m → ∃ s', match_here s' = Some m.
Proof.
  induction s as [|c s IH]; cbn [file_re_search].
  - destruct (match_here "") eqn:E; [|done]. intros [= <-]. eauto.
  - destruct (match_here (String c s)) eqn:E.
    + intros [= <-]. eauto.
    + apply IH.
Qed.

Lemma file_re_search_groups s m :
  file_re_search s = Some m →
  all_digits (rgt m) = true ∧ String.length (rgt m) = 4%nat ∧
  all_digits (cycle m) = true ∧ String.length (cycle m) = 2%nat.
Proof.
  intros H. apply file_re_search_Some in H as [s' H].
  by apply match_here_groups in H.
Qed.

(** [int] of [k] digits is below [10^k]. *)
Lemma int_acc_bounds acc s :
  all_digits s = true → (0 ≤ acc)%Z →
  (acc * 10 ^ Z.of_nat (String.length s) ≤ int_acc acc s
   < (acc + 1) * 10 ^ Z.of_nat (String.length s))%Z.
Proof.
  revert acc. induction s as [|c s IH]; intros acc Hd Hacc.
  - simpl. lia.
  - rewrite all_digits_cons in Hd. apply andb_prop in Hd as [Hc Hd].
    cbn [int_acc String.length]. rewrite Nat2Z.inj_succ, Z.pow_succ_r by lia.
    unfold is_digit in Hc. apply andb_prop in Hc as [H1 H2].
    apply Nat.leb_le in H1, H2.
    specialize (IH (10 * acc + Z.of_nat (nat_of_ascii c - 48))%Z Hd).
    assert (0 < 10 ^ Z.of_nat (String.length s))%Z by (apply Z.pow_pos_nonneg; lia).
    nia.
Qed.

Lemma int_bounds s :
  all_digits s = true → (0 ≤ int s < 10 ^ Z.of_nat (String.length s))%Z.
Proof. intros H. pose proof (int_acc_bounds 0 s H). unfold int. lia. Qed.

Lemma match_here_atl06_name date g_rgt g_cycle region release version sep rest :
  all_digits date = true → date ≠ ""%string →
  all_digits g_rgt = true → String.length g_rgt = 4%nat →
  all_digits g_cycle = true → String.length g_cycle = 2%nat →
  all_digits region = true → String.length region = 2%nat →
  all_digits release = true → String.length release = 3%nat →
  all_digits version = true → String.length version = 2%nat →
  sep ≠ "010"%char →
  match_here (atl06_name date g_rgt g_cycle region release version sep +:+ rest)
  = Some {| rgt := g_rgt; cycle := g_cycle |}.
Proof.
  intros Hd Hne Hr Lr Hc Lc Hg Lg Hl Ll Hv Lv Hsep.
  unfold atl06_name, match_here. rewrite !append_assoc.
  rewrite expect_append. cbn [mbind option_bind].
  rewrite (digits1_append_underscore date) by done. cbn [mbind option_bind].
  rewrite (expect_append "_"). cbn [mbind option_bind].
  rewrite (digits_append 4 g_rgt) by done. cbn [mbind option_bind].
  rewrite (digits_append 2 g_cycle) by done. cbn [mbind option_bind].
  rewrite (digits_append 2 region) by done. cbn [mbind option_bind].
  rewrite (expect_append "_"). cbn [mbind option_bind].
  rewrite (digits_append 3 release) by done. cbn [mbind option_bind].
  rewrite (expect_append "_"). cbn [mbind option_bind].
  rewrite (digits_append 2 version) by done. cbn [mbind option_bind].
  rewrite append_cons. cbn [any_char].
  apply eqb_neq in Hsep. rewrite Hsep. cbn [mbind option_bind].
  by rewrite (expect_append "h5").
Qed.

Lemma file_re_search_head s m : match_here s = Some m → file_re_search s = Some m.
Proof. intros H. destruct s; cbn [file_re_search]; by rewrite H. Qed.

Lemma file_re_search_prefix p s :
  is_Some (file_re_search s) → is_Some (file_re_search (p +:+ s)).
Proof.
  intros Hs. induction p as [|c p IH]; [done|]. rewrite append_cons.
  cbn [file_re_search]. by destruct (match_here (String c (p +:+ s))).
Qed.

Lemma expect_straddle d x :
  d ≠ ""%string → expect "ATL06_" d = None →
  expect "ATL06_" (d +:+ "ATL06_" +:+ x) = None.
Proof.
  intros Hd.
  destruct d as [|c0 [|c1 [|c2 [|c3 [|c4 [|c5 d]]]]]]; [done|..];
    rewrite ?append_cons, ?append_nil_l; cbn [expect];
    repeat match goal with
           | |- context [Ascii.eqb ?a ?c] =>
               is_var c; destruct (Ascii.eqb_spec a c) as [<-|]; [|done]
           end; done.
Qed.

Lemma file_re_search_skip_dir dir x :
  occurs "ATL06_" dir = false →
  file_re_search (dir +:+ "ATL06_" +:+ x) = file_re_search ("ATL06_" +:+ x).
Proof.
  induction dir as [|c dir IH]; [done|]. intros H. cbn [occurs] in H.
  destruct (expect "ATL06_" (String c dir)) eqn:E; [done|].
  rewrite append_cons. cbn [file_re_search].
  assert (match_here (String c (dir +:+ "ATL06_" +:+ x)) = None) as ->.
  { unfold match_here. rewrite <- append_cons.
    by rewrite expect_straddle. }
  by apply IH.
Qed.

End FileNames.

(** ** More on the reader *)

Section ReaderMore.
Implicit Types (h5f : h5file) (D : gmap string ndarray) (dss : list string)
  (field_dict : fields) (key : option string) (ds beam : string)
  (index : option slice).

Lemma read_group_total h5f beam index key dss D :
  (∀ ds, ds ∈ dss → is_Some (h5f !! ds_name beam key ds)) →
  ∃ D', read_group h5f beam index key dss D = Ok D'.
Proof.
  revert D. induction dss as [|ds dss IH]; intros D Hall; simpl; [eauto|].
  destruct (Hall ds) as [d Hd]; [by left|].
  rewrite read_field_eq, (getitem_Some _ _ _ Hd). cbn.
  apply IH. intros ds' Hin. apply Hall. by right.
Qed.

Lemma read_fields_total h5f beam index field_dict D :
  (∀ key dss ds, (key, dss) ∈ field_dict → ds ∈ dss →
                 is_Some (h5f !! ds_name beam key ds)) →
  ∃ D', read_fields h5f beam index field_dict D = Ok D'.
Proof.
  revert D. induction field_dict as [|[key dss] fd IH]; intros D Hall; simpl;
    [eauto|].
  destruct (read_group_total h5f beam index key dss D) as [D1 ->].
  { intros ds Hin. apply (Hall key dss); [by left | done]. }
  cbn. apply IH. intros key' dss' ds Hin Hds. apply (Hall key' dss'); [by right | done].
Qed.

Lemma last_group_requested field_dict ds :
  is_Some (last_group field_dict ds) ↔ requested field_dict ds.
Proof.
  split.
  - intros [key Hk]. apply last_group_Some in Hk as (dss & H1 & H2).
    by exists key, dss.
  - intros (key & dss & Hin & Hds).
    induction field_dict as [|[key0 dss0] fd IH]; [by apply elem_of_nil in Hin|].
    cbn [last_group]. destruct (last_group fd ds) as [k|] eqn:E; [eauto|].
    apply elem_of_cons in Hin as [Heq|Hin].
    + injection Heq as <- <-. rewrite decide_True by done. eauto.
    + destruct (IH Hin) as [k Hk]. done.
Qed.

(** After the loops, started on the empty dictionary, the names in the
    dictionary are the requested ones. *)
Lemma read_fields_dom h5f beam index field_dict D ds :
  read_fields h5f beam index field_dict ∅ = Ok D →
  is_Some (D !! ds) ↔ requested field_dict ds.
Proof.
  intros H. rewrite (read_fields_lookup _ _ _ _ _ _ ds H).
  rewrite <- last_group_requested.
  destruct (last_group field_dict ds) as [key|] eqn:E.
  - split; [eauto|]. intros _.
    apply last_group_Some in E as (dss & Hin & Hds).
    destruct (read_fields_present _ _ _ _ _ _ _ _ _ H Hin Hds) as [d ->]. eauto.
  - rewrite lookup_empty. split; intros [? ?]; done.
Qed.

Lemma project_Ok E code D D2 :
  project E code D = Ok D2 →
  ∃ p lon lat xs ys,
    Proj E code = Ok p ∧ D !! "longitude" = Some lon ∧ D !! "latitude" = Some lat ∧
    p lon lat = Ok (xs, ys) ∧
    length xs = arr_size lat ∧ length ys = arr_size lat ∧
    D2 = <["y" := FloatArr ys]> (<["x" := FloatArr xs]> D).
Proof.
  unfold project, getitem, reshape_like. intros H.
  destruct (Proj E code) as [p|]; [|done]. cbn in H.
  destruct (D !! "longitude") as [lon|] eqn:Hlon; [|done]. cbn in H.
  destruct (D !! "latitude") as [lat|] eqn:Hlat; [|done]. cbn in H.
  destruct (p lon lat) as [[xs ys]|] eqn:Hp; [|done]. cbn in H.
  destruct (decide (length xs = arr_size lat)) as [Lx|]; [|done]. cbn in H.
  rewrite lookup_insert_ne in H by done. rewrite Hlat in H. cbn in H.
  destruct (decide (length ys = arr_size lat)) as [Ly|]; [|done]. cbn in H.
  injection H as <-. by exists p, lon, lat, xs, ys.
Qed.

(** A read that returns, step by step. *)
Lemma atl06_to_dict_Ok_steps E filename beam (fd : option fields) index epsg Dout :
  atl06_to_dict E filename beam fd index epsg = Ok Dout →
  ∃ h5f D D2 temp,
    files E !! filename = Some h5f ∧
    read_fields h5f beam index (default default_field_dict fd) ∅ = Ok D ∧
    match epsg with
    | Some code => project E code D = Ok D2
    | None => D2 = D
    end ∧
    file_re_search filename = Some temp ∧
    Dout = <["beam" := VStr beam]>
             (<["cycle" := VInt (int (cycle temp))]>
                (<["rgt" := VInt (int (rgt temp))]> (VArr <$> D2))).
Proof.
  unfold atl06_to_dict, h5py_File. intros H.
  apply bind_Ok_inv in H as (D & HD & H).
  destruct (files E !! filename) as [h5f|] eqn:Ef; [|done]. cbn in HD.
  apply bind_Ok_inv in H as (D2 & HD2 & H).
  destruct (file_re_search filename) as [temp|] eqn:Et; [|done].
  injection H as <-. exists h5f, D, D2, temp. repeat split; try done.
  destruct epsg; [done|]. by injection HD2.
Qed.

End ReaderMore.

(** X9: The provenance of a granule that was read: the track and the cycle are
    numbers of four and of two digits, and the beam is the one asked for. *)
Theorem provenance_entries E filename beam (fd : option fields) index epsg Dout :
  atl06_to_dict E filename beam fd index epsg = Ok Dout →
  ∃ r c,
    Dout !! "rgt" = Some (VInt r) ∧ (0 ≤ r ≤ 9999)%Z ∧
    Dout !! "cycle" = Some (VInt c) ∧ (0 ≤ c ≤ 99)%Z ∧
    Dout !! "beam" = Some (VStr beam).
Proof.
  intros H.
  apply atl06_to_dict_Ok_steps in H as (h5f & D & D2 & temp & _ & _ & _ & Ht & ->).
  destruct (file_re_search_groups _ _ Ht) as (Hr & Lr & Hc & Lc).
  pose proof (int_bounds _ Hr) as Br. pose proof (int_bounds _ Hc) as Bc.
  rewrite Lr in Br. rewrite Lc in Bc.
  exists (int (rgt temp)), (int (cycle temp)).
  rewrite lookup_insert_eq.
  rewrite (lookup_insert_ne _ "beam" "cycle"), lookup_insert_eq by done.
  rewrite (lookup_insert_ne _ "beam" "rgt"), (lookup_insert_ne _ "cycle" "rgt"),
    lookup_insert_eq by done.
  repeat split; try done; change (10 ^ Z.of_nat 4)%Z with 10000%Z in Br;
    change (10 ^ Z.of_nat 2)%Z with 100%Z in Bc; lia.
Qed.

Lemma provenance_entries_witness :
  ∃ r c,
    sample_D !! "rgt" = Some (VInt r) ∧ (0 ≤ r ≤ 9999)%Z ∧
    sample_D !! "cycle" = Some (VInt c) ∧ (0 ≤ c ≤ 99)%Z ∧
    sample_D !! "beam" = Some (VStr "/gt2l").
Proof.
  apply (provenance_entries sample_env sample_name "/gt2l" None None None sample_D).
  by_compute.
Defined.

(** X10: The track and the cycle of a granule are the numbers written in its
    name, whatever directory without [ATL06_] in its name the file is in,
    whatever follows the name and whatever character stands before
    [h5]. *)
Theorem provenance_from_name E beam (fd : option fields) index epsg Dout
    dir date g_rgt g_cycle region release version sep rest :
  occurs "ATL06_" dir = false →
  all_digits date = true → date ≠ ""%string →
  all_digits g_rgt = true → String.length g_rgt = 4%nat →
  all_digits g_cycle = true → String.length g_cycle = 2%nat →
  all_digits region = true → String.length region = 2%nat →
  all_digits release = true → String.length release = 3%nat →
  all_digits version = true → String.length version = 2%nat →
  sep ≠ "010"%char →
  atl06_to_dict E
    (dir +:+ atl06_name date g_rgt g_cycle region release version sep +:+ rest)
    beam fd index epsg = Ok Dout →
  Dout !! "rgt" = Some (VInt (int g_rgt)) ∧
  Dout !! "cycle" = Some (VInt (int g_cycle)).
Proof.
  intros Hdir Hd Hne Hr Lr Hc Lc Hg Lg Hl Ll Hv Lv Hsep H.
  apply atl06_to_dict_Ok_steps in H as (h5f & D & D2 & temp & _ & _ & _ & Ht & ->).
  pose proof (match_here_atl06_name date g_rgt g_cycle region release version
                sep rest Hd Hne Hr Lr Hc Lc Hg Lg Hl Ll Hv Lv Hsep) as Hm.
  apply file_re_search_head in Hm.
  unfold atl06_name in Ht, Hm. rewrite append_assoc in Ht, Hm.
  rewrite file_re_search_skip_dir in Ht by done.
  rewrite Hm in Ht. injection Ht as <-. cbn.
  rewrite (lookup_insert_ne _ "beam" "cycle"), lookup_insert_eq by done.
  rewrite (lookup_insert_ne _ "beam" "rgt"), (lookup_insert_ne _ "cycle" "rgt"),
    lookup_insert_eq by done.
  done.
Qed.

Lemma provenance_from_name_witness :
  sample_D !! "rgt" = Some (VInt (int "0235")) ∧
  sample_D !! "cycle" = Some (VInt (int "01")).
Proof.
  apply (provenance_from_name sample_env "/gt2l" None None None sample_D
           "PIG_ATL06/" "20181014045341" "0235" "01" "11" "003" "01" "." "");
    [reflexivity | reflexivity | discriminate | reflexivity | reflexivity
    | reflexivity | reflexivity | reflexivity | reflexivity | reflexivity
    | reflexivity | reflexivity | reflexivity | discriminate | by_compute].
Defined.

(** X11: A path that ends in the name of a granule always holds a match of the
    pattern. *)
Theorem name_found_in_path dir date g_rgt g_cycle region release version :
  all_digits date = true → date ≠ ""%string →
  all_digits g_rgt = true → String.length g_rgt = 4%nat →
  all_digits g_cycle = true → String.length g_cycle = 2%nat →
  all_digits region = true → String.length region = 2%nat →
  all_digits release = true → String.length release = 3%nat →
  all_digits version = true → String.length version = 2%nat →
  is_Some (file_re_search
             (dir +:+ atl06_name date g_rgt g_cycle region release version ".")).
Proof.
  intros Hd Hne Hr Lr Hc Lc Hg Lg Hl Ll Hv Lv.
  apply file_re_search_prefix. eexists. apply file_re_search_head.
  rewrite <- (append_nil_r (atl06_name _ _ _ _ _ _ _)).
  by apply match_here_atl06_name.
Qed.

Lemma name_found_in_path_witness :
  is_Some (file_re_search
             ("PIG_ATL06/"
              +:+ atl06_name "20181014045341" "0235" "01" "11" "003" "01" ".")).
Proof.
  apply (name_found_in_path "PIG_ATL06/"
           "20181014045341" "0235" "01" "11" "003" "01");
    first [reflexivity | discriminate].
Defined.

(** X12: The names in a granule that was read: the datasets asked for, the three
    provenance names, and [x] and [y] when a projection was asked for. *)
Theorem names_of_granule E filename beam (fd : option fields) index epsg Dout ds :
  atl06_to_dict E filename beam fd index epsg = Ok Dout →
  is_Some (Dout !! ds) ↔
    requested (default default_field_dict fd) ds
    ∨ ds ∈ ["rgt"; "cycle"; "beam"]
    ∨ (is_Some epsg ∧ ds ∈ ["x"; "y"]).
Proof.
  intros H.
  apply atl06_to_dict_Ok_steps in H as (h5f & D & D2 & temp & _ & HD & HD2 & _ & ->).
  rewrite !lookup_insert_is_Some, lookup_fmap, fmap_is_Some.
  assert (is_Some (D2 !! ds) ↔
          requested (default default_field_dict fd) ds
          ∨ (is_Some epsg ∧ ds ∈ ["x"; "y"])) as ->.
  { destruct epsg as [code|].
    - apply project_Ok in HD2 as (p & lon & lat & xs & ys & _ & _ & _ & _ & _ & _ & ->).
      rewrite !lookup_insert_is_Some, (read_fields_dom _ _ _ _ _ ds HD).
      rewrite !elem_of_cons, elem_of_nil. split.
      + intros [->|[_ [->|[_ ?]]]]; eauto 10.
      + intros [?|[_ [->|[->|[]]]]]; [|eauto..].
        destruct (decide ("y" = ds)); [eauto|].
        destruct (decide ("x" = ds)); [eauto|]. eauto 10.
    - subst D2. rewrite (read_fields_dom _ _ _ _ _ ds HD).
      split; [eauto|]. intros [?|[[? ?] _]]; done. }
  rewrite !elem_of_cons, elem_of_nil. split.
  - intros [->|[_ [->|[_ [->|[_ [?|?]]]]]]]; eauto 10.
  - intros [?|[[->|[->|[->|[]]]]|?]]; [|eauto 10..|].
    + destruct (decide ("beam" = ds)); [eauto|].
      destruct (decide ("cycle" = ds)); [eauto 10|].
      destruct (decide ("rgt" = ds)); [eauto 10|]. eauto 20.
    + destruct (decide ("beam" = ds)); [eauto|].
      destruct (decide ("cycle" = ds)); [eauto 10|].
      destruct (decide ("rgt" = ds)); [eauto 10|]. eauto 20.
Qed.

Lemma names_of_granule_witness :
  is_Some (sample_projected !! "x") ↔
    requested (default default_field_dict None) "x"
    ∨ "x" ∈ ["rgt"; "cycle"; "beam"]
    ∨ (is_Some (Some 3031%Z) ∧ "x" ∈ ["x"; "y"]).
Proof.
  apply (names_of_granule sample_env sample_name "/gt2l" None None
           (Some 3031%Z) sample_projected "x").
  by_compute.
Defined.


(** X13: With a projection code, a granule that was read has float64 columns [x]
    and [y] of the size of its latitudes, next to the longitudes and
    latitudes it was asked to read. *)
Theorem projected_columns E filename beam (fd : option fields) index code Dout :
  atl06_to_dict E filename beam fd index (Some code) = Ok Dout →
  ∃ xs ys lon lat,
    Dout !! "x" = Some (VArr (FloatArr xs)) ∧
    Dout !! "y" = Some (VArr (FloatArr ys)) ∧
    Dout !! "longitude" = Some (VArr lon) ∧
    Dout !! "latitude" = Some (VArr lat) ∧
    length xs = arr_size lat ∧ length ys = arr_size lat.
Proof.
  intros H.
  apply atl06_to_dict_Ok_steps in H as (h5f & D & D2 & temp & _ & _ & HD2 & _ & ->).
  apply project_Ok in HD2 as (p & lon & lat & xs & ys & _ & Hlon & Hlat & _ & Lx & Ly & ->).
  exists xs, ys, lon, lat.
  rewrite !(lookup_insert_ne _ "beam"), !(lookup_insert_ne _ "cycle"),
    !(lookup_insert_ne _ "rgt") by done.
  rewrite !lookup_fmap.
  rewrite (lookup_insert_ne _ "y" "x"), !lookup_insert_eq by done.
  rewrite !(lookup_insert_ne _ "y"), !(lookup_insert_ne _ "x") by done.
  by rewrite Hlon, Hlat.
Qed.

Lemma projected_columns_witness :
  ∃ xs ys lon lat,
    sample_projected !! "x" = Some (VArr (FloatArr xs)) ∧
    sample_projected !! "y" = Some (VArr (FloatArr ys)) ∧
    sample_projected !! "longitude" = Some (VArr lon) ∧
    sample_projected !! "latitude" = Some (VArr lat) ∧
    length xs = arr_size lat ∧ length ys = arr_size lat.
Proof.
  apply (projected_columns sample_env sample_name "/gt2l" None None 3031
           sample_projected).
  by_compute.
Defined.

(** X14: A projection needs the longitudes and the latitudes: when the file
    holds every dataset asked for and the projection exists, a read that
    was not asked for the longitudes raises [KeyError] for them, and one
    that was asked for the longitudes and not for the latitudes raises it
    for the latitudes. *)
Theorem projection_needs_lon_lat E filename h5f beam (fd : option fields) index code p :
  files E !! filename = Some h5f →
  (∀ key dss ds, (key, dss) ∈ default default_field_dict fd → ds ∈ dss →
                 is_Some (h5f !! ds_name beam key ds)) →
  Proj E code = Ok p →
  (¬ requested (default default_field_dict fd) "longitude" →
   atl06_to_dict E filename beam fd index (Some code) = Raise (KeyError "longitude")) ∧
  (requested (default default_field_dict fd) "longitude" →
   ¬ requested (default default_field_dict fd) "latitude" →
   atl06_to_dict E filename beam fd index (Some code) = Raise (KeyError "latitude")).
Proof.
  intros Hf Hall Hp.
  destruct (read_fields_total h5f beam index (default default_field_dict fd) ∅ Hall)
    as [D HD].
  pose proof (read_fields_dom _ _ _ _ _ "longitude" HD) as Hlon.
  pose proof (read_fields_dom _ _ _ _ _ "latitude" HD) as Hlat.
  unfold atl06_to_dict, h5py_File. rewrite Hf. cbn. rewrite HD. cbn.
  unfold project. rewrite Hp. cbn. unfold getitem. split.
  - intros Hno. destruct (D !! "longitude") as [lon|] eqn:Elon; [|done].
    exfalso. apply Hno, Hlon. eauto.
  - intros Hyes Hno. apply Hlon in Hyes as [lon ->]. cbn.
    destruct (D !! "latitude") as [lat|] eqn:Elat; [|done].
    exfalso. apply Hno, Hlat. eauto.
Qed.

Lemma projection_needs_lon_lat_witness :
  (¬ requested (default default_field_dict (Some [(None, ["h_li"])])) "longitude" →
   atl06_to_dict sample_env sample_name "/gt2l" (Some [(None, ["h_li"])]) None
     (Some 3031%Z) = Raise (KeyError "longitude")) ∧
  (requested (default default_field_dict (Some [(None, ["h_li"])])) "longitude" →
   ¬ requested (default default_field_dict (Some [(None, ["h_li"])])) "latitude" →
   atl06_to_dict sample_env sample_name "/gt2l" (Some [(None, ["h_li"])]) None
     (Some 3031%Z) = Raise (KeyError "latitude")).
Proof.
  apply (projection_needs_lon_lat sample_env sample_name sample_h5 "/gt2l"
           (Some [(None, ["h_li"])]) None 3031
           (λ lon lat, Ok (astype_float lon, astype_float lat))).
  - by_compute.
  - intros key dss ds Hin Hds. cbn [default] in Hin.
    apply list_elem_of_singleton in Hin. injection Hin as -> ->.
    apply list_elem_of_singleton in Hds as ->.
    eexists. by_compute.
  - reflexivity.
Defined.

(** X15: Without a projection, a read returns exactly when the file is there,
    holds every dataset asked for, and has a name in which the pattern
    finds a match. *)
Theorem read_returns_iff E filename beam (fd : option fields) index :
  is_ok (atl06_to_dict E filename beam fd index None) = true ↔
  ∃ h5f,
    files E !! filename = Some h5f ∧
    (∀ key dss ds, (key, dss) ∈ default default_field_dict fd → ds ∈ dss →
                   is_Some (h5f !! ds_name beam key ds)) ∧
    is_Some (file_re_search filename).
Proof.
  split.
  - destruct (atl06_to_dict E filename beam fd index None) as [Dout|] eqn:H; [|done].
    intros _.
    apply atl06_to_dict_Ok_steps in H as (h5f & D & D2 & temp & Hf & HD & _ & Ht & _).
    exists h5f. repeat split; [done| |eauto].
    intros key dss ds Hin Hds. by eapply read_fields_present.
  - intros (h5f & Hf & Hall & [temp Ht]).
    destruct (read_fields_total h5f beam index (default default_field_dict fd) ∅ Hall)
      as [D HD].
    unfold atl06_to_dict, h5py_File. rewrite Hf. cbn. rewrite HD. cbn.
    by rewrite Ht.
Qed.


(** ** More on the loop over the files *)

(** X16: An exception other than [KeyError] ends the loop: the files after the
    one that raised it are not read. *)
Theorem other_exception_ends_loop E (l1 l2 : list string) file e :
  batch_read E file = Raise e → (∀ k, e ≠ KeyError k) →
  (read_all E l1).2 = None →
  read_all E (l1 ++ file :: l2) = ((read_all E l1).1, Some e).
Proof.
  unfold batch_read, read_all. intros He Hne Hl1.
  rewrite read_files_app.
  destruct (read_files E l1 _) as [st [e1|]]; [done|].
  cbn [read_files]. rewrite He. destruct e; try done. by destruct (Hne key).
Qed.

Lemma other_exception_ends_loop_witness :
  read_all sample_env ([sample_name] ++ renamed_name :: [later_name])
  = ((read_all sample_env [sample_name]).1, Some TypeError).
Proof.
  apply (other_exception_ends_loop sample_env [sample_name] [later_name]
           renamed_name TypeError).
  - by_compute.
  - intros k. discriminate.
  - by_compute.
Defined.

(** X17: When every read returns or raises [KeyError], the loop runs to its end
    and [D_dict] holds exactly the files that were read, each with its
    granule. *)
Theorem loop_keeps_the_readable_files E (l : list string) :
  (∀ file, file ∈ l →
     is_ok (batch_read E file) = true ∨ ∃ k, batch_read E file = Raise (KeyError k)) →
  (read_all E l).2 = None ∧
  ∀ file D, D_dict (read_all E l).1 !! file = Some D ↔
            file ∈ l ∧ batch_read E file = Ok D.
Proof.
  intros Hall. unfold read_all.
  destruct (read_files_spec E l {| D_dict := ∅; printed := [] |} Hall) as [Hnone Hdict].
  split; [done|]. intros file D. rewrite Hdict. cbn [D_dict].
  rewrite lookup_empty.
  destruct (batch_read E file) as [D'|]; [|split; [done | by intros [_ ?]]].
  destruct (decide (file ∈ l)) as [Hin|Hout].
  - split; [by intros [= ->] | by intros [_ [= ->]]].
  - split; [done | by intros [? _]].
Qed.

Lemma loop_keeps_the_readable_files_witness :
  (read_all sample_env [sample_name; cloudy_name]).2 = None ∧
  ∀ file D,
    D_dict (read_all sample_env [sample_name; cloudy_name]).1 !! file = Some D ↔
    file ∈ [sample_name; cloudy_name] ∧ batch_read sample_env file = Ok D.
Proof.
  apply (loop_keeps_the_readable_files sample_env [sample_name; cloudy_name]).
  intros file Hin.
  apply elem_of_cons in Hin as [->|Hin].
  - left. by_compute.
  - apply list_elem_of_singleton in Hin as ->. right.
    exists "/gt2l/land_ice_segments/fit_statistics/dh_fit_dy"%string. by_compute.
Defined.


(** ** Reading both beams *)

Lemma foldl_concat {A B} (g : A → B → A) (a : A) (ll : list (list B)) :
  foldl (λ a l, foldl g a l) a ll = foldl g a (concat ll).
Proof.
  revert a. induction ll as [|l ll IH]; intros a; simpl; [done|].
  by rewrite IH, foldl_app.
Qed.

Lemma read_pairs_eq E listing :
  read_pairs E listing
  = foldl (read_pair E) {| D_2l := ∅; D_2r := ∅; printed_pairs := [] |}
      (concat listing).
Proof. unfold read_pairs. apply foldl_concat. Qed.

Lemma foldl_read_pair_spec E l st file :
  D_2l (foldl (read_pair E) st l) !! file
  = match read_left E file with
    | Ok Dl => if decide (file ∈ l) then Some Dl else D_2l st !! file
    | Raise _ => D_2l st !! file
    end ∧
  D_2r (foldl (read_pair E) st l) !! file
  = match read_left E file, read_right E file with
    | Ok _, Ok Dr => if decide (file ∈ l) then Some Dr else D_2r st !! file
    | _, _ => D_2r st !! file
    end.
Proof.
  revert st. induction l as [|f l IH]; intros st.
  - cbn [foldl]. destruct (read_left E file), (read_right E file);
      rewrite ?decide_False by apply not_elem_of_nil; done.
  - cbn [foldl]. destruct (IH (read_pair E st f)) as [-> ->]. clear IH.
    unfold read_pair.
    destruct (decide (file = f)) as [->|Hne].
    + destruct (read_left E f) as [Dl|el]; [destruct (read_right E f) as [Dr|er]|];
        cbn [D_2l D_2r];
        rewrite ?lookup_insert_eq, ?(decide_True (P := f ∈ f :: l)) by left;
        by destruct (decide (f ∈ l)).
    + assert (file ∈ f :: l ↔ file ∈ l) as Hiff.
      { rewrite elem_of_cons. split; [by intros [?|?] | by right]. }
      assert (D_2l (match read_left E f with
                    | Ok Dl =>
                        match read_right E f with
                        | Ok Dr =>
                            {| D_2l := <[f:=Dl]> (D_2l st);
                               D_2r := <[f:=Dr]> (D_2r st);
                               printed_pairs := printed_pairs st |}
                        | Raise e =>
                            {| D_2l := <[f:=Dl]> (D_2l st); D_2r := D_2r st;
                               printed_pairs := (f, e) :: printed_pairs st |}
                        end
                    | Raise e =>
                        {| D_2l := D_2l st; D_2r := D_2r st;
                           printed_pairs := (f, e) :: printed_pairs st |}
                    end) !! file = D_2l st !! file) as ->.
      { destruct (read_left E f); [destruct (read_right E f)|]; cbn [D_2l];
          by rewrite ?lookup_insert_ne. }
      assert (D_2r (match read_left E f with
                    | Ok Dl =>
                        match read_right E f with
                        | Ok Dr =>
                            {| D_2l := <[f:=Dl]> (D_2l st);
                               D_2r := <[f:=Dr]> (D_2r st);
                               printed_pairs := printed_pairs st |}
                        | Raise e =>
                            {| D_2l := <[f:=Dl]> (D_2l st); D_2r := D_2r st;
                               printed_pairs := (f, e) :: printed_pairs st |}
                        end
                    | Raise e =>
                        {| D_2l := D_2l st; D_2r := D_2r st;
                           printed_pairs := (f, e) :: printed_pairs st |}
                    end) !! file = D_2r st !! file) as ->.
      { destruct (read_left E f); [destruct (read_right E f)|]; cbn [D_2r];
          by rewrite ?lookup_insert_ne. }
      destruct (read_left E file), (read_right E file); try done;
        destruct (decide (file ∈ l)) as [Hin|Hout];
        rewrite ?(decide_True (P := file ∈ f :: l)) by tauto;
        rewrite ?(decide_False (P := file ∈ f :: l)) by tauto; done.
Qed.

(** X18: What the two loops leave in [D_2l] and [D_2r]: a file is in [D_2l] when
    its left beam was read, and in [D_2r] when both beams were; so every
    file of [D_2r] is in [D_2l], and not the other way round. *)
Theorem pairs_after_loops E (listing : list (list string)) (file : string) :
  (∀ Dl, D_2l (read_pairs E listing) !! file = Some Dl ↔
         file ∈ concat listing ∧ read_left E file = Ok Dl) ∧
  (∀ Dr, D_2r (read_pairs E listing) !! file = Some Dr ↔
         file ∈ concat listing ∧ is_ok (read_left E file) = true
         ∧ read_right E file = Ok Dr) ∧
  (is_Some (D_2r (read_pairs E listing) !! file) →
   is_Some (D_2l (read_pairs E listing) !! file)).
Proof.
  rewrite read_pairs_eq.
  destruct (foldl_read_pair_spec E (concat listing)
              {| D_2l := ∅; D_2r := ∅; printed_pairs := [] |} file) as [-> ->].
  cbn [D_2l D_2r]. rewrite !lookup_empty.
  destruct (read_left E file) as [Dl|el], (read_right E file) as [Dr|er];
    destruct (decide (file ∈ concat listing)) as [Hin|Hout];
    (split; [|split];
     [ intros ?; split; intros; destruct_and?; by simplify_eq
     | intros ?; split; intros; destruct_and?; by simplify_eq
     | intros [? ?]; simplify_eq; eauto ]).
Qed.

(** X19: A file whose left beam is read and whose right beam raises is a key of
    [D_2l] and not of [D_2r]: the later [D_2r[filename]], for the file
    names of [D_2l], raises [KeyError] there. *)
Theorem right_beam_missing E (listing : list (list string)) file Dl e :
  file ∈ concat listing →
  read_left E file = Ok Dl → read_right E file = Raise e →
  getitem (D_2l (read_pairs E listing)) file = Ok Dl ∧
  getitem (D_2r (read_pairs E listing)) file = Raise (KeyError file).
Proof.
  intros Hin Hl Hr. unfold getitem. rewrite read_pairs_eq.
  destruct (foldl_read_pair_spec E (concat listing)
              {| D_2l := ∅; D_2r := ∅; printed_pairs := [] |} file) as [-> ->].
  rewrite Hl, Hr. by rewrite decide_True.
Qed.

Lemma right_beam_missing_witness :
  getitem (D_2l (read_pairs sample_env [[sample_name]; [later_name]])) sample_name
  = Ok sample_projected ∧
  getitem (D_2r (read_pairs sample_env [[sample_name]; [later_name]])) sample_name
  = Raise (KeyError sample_name).
Proof.
  apply (right_beam_missing sample_env [[sample_name]; [later_name]] sample_name
           sample_projected (KeyError "/gt2r/land_ice_segments/latitude")).
  - simpl. left.
  - by_compute.
  - by_compute.
Defined.


(** ** Photon classes *)

(** X20: The three classes of photons never overlap, and the photons that are in
    none of them are those of confidence -1. *)
Theorem photon_classes (conf : list Z) (i : nat) (c : Z) :
  conf !! i = Some c →
  ∃ t b l,
    TEP conf !! i = Some t ∧ BG conf !! i = Some b ∧ LMH conf !! i = Some l ∧
    t && b = false ∧ t && l = false ∧ b && l = false ∧
    (t || b || l = false ↔ c = (-1)%Z).
Proof.
  intros Hc. unfold TEP, BG, LMH. rewrite !list_lookup_fmap, Hc. cbn.
  eexists _, _, _. repeat split; try done.
  - destruct (Z.ltb_spec c (-1)), (Z.eqb_spec c 0), (Z.eqb_spec c 1); simpl; lia.
  - destruct (Z.ltb_spec c (-1)); simpl; [|done].
    unfold Z.geb. destruct (Z.compare_spec c 2); lia.
  - unfold Z.geb.
    destruct (Z.eqb_spec c 0), (Z.eqb_spec c 1), (Z.compare_spec c 2); simpl; lia.
  - unfold Z.geb.
    destruct (Z.ltb_spec c (-1)), (Z.eqb_spec c 0), (Z.eqb_spec c 1),
      (Z.compare_spec c 2); simpl; intros; lia || done.
  - intros ->. done.
Qed.

Lemma photon_classes_witness :
  ∃ t b l,
    TEP [-2; -1; 0; 1; 2; 4]%Z !! 1%nat = Some t ∧
    BG [-2; -1; 0; 1; 2; 4]%Z !! 1%nat = Some b ∧
    LMH [-2; -1; 0; 1; 2; 4]%Z !! 1%nat = Some l ∧
    t && b = false ∧ t && l = false ∧ b && l = false ∧
    (t || b || l = false ↔ (-1)%Z = (-1)%Z).
Proof.
  apply (photon_classes [-2; -1; 0; 1; 2; 4]%Z 1 (-1)%Z). reflexivity.
Defined.

(** ** The corrected plot *)

Section CorrectedPlot.
Import F64 F64Facts.

(** X21: The corrected heights are drawn against as many abscissae: one point
    for every segment whose quality flag is zero, in the order of the
    granule. *)
Theorem corrected_plot_points (Dl : table) (h y dy q x : list float) :
  Dl !! "h_li" = Some h → Dl !! "y_atc" = Some y → Dl !! "dh_fit_dy" = Some dy →
  Dl !! "atl06_quality_summary" = Some q → Dl !! "x_atc" = Some x →
  length y = length h → length dy = length h → length q = length h →
  length x = length h →
  let good := map (λ v, eqb v zero) q in
  plotted_x Dl = Ok (select x good) ∧
  corrected_elevation Dl = Ok (select (corrected_column h y dy) good) ∧
  length (select x good) = count_occ Bool.bool_dec good true ∧
  length (select (corrected_column h y dy) good) = count_occ Bool.bool_dec good true.
Proof.
  intros Hh Hy Hdy Hq Hx Ly Ldy Lq Lx good. repeat split.
  - unfold plotted_x, good_mask.
    rewrite (getitem_Some _ _ _ Hq). cbn. rewrite (getitem_Some _ _ _ Hx). cbn.
    apply mask_index_same. subst good. rewrite length_map. congruence.
  - by apply corrected_elevation_eq.
  - apply length_select. subst good. rewrite length_map. congruence.
  - apply length_select. subst good. unfold corrected_column.
    rewrite length_map, !length_zip_with, Lq, Ly, Ldy. by rewrite !Nat.min_id.
Qed.

Lemma corrected_plot_points_witness :
  let good := map (λ v, eqb v zero) [fZ 0; fZ 1; fZ 0] in
  plotted_x granule_pair_x = Ok (select [fZ 0; fZ 20; fZ 40] good) ∧
  corrected_elevation granule_pair_x
  = Ok (select (corrected_column [fZ 200; fZ 150; fZ 200] [fZ 0; fZ 3; fZ 50]
                  [dec 2 1000; dec 1 1000; dec 2 1000]) good) ∧
  length (select [fZ 0; fZ 20; fZ 40] good) = count_occ Bool.bool_dec good true ∧
  length (select (corrected_column [fZ 200; fZ 150; fZ 200] [fZ 0; fZ 3; fZ 50]
                    [dec 2 1000; dec 1 1000; dec 2 1000]) good)
  = count_occ Bool.bool_dec good true.
Proof.
  apply (corrected_plot_points granule_pair_x
           [fZ 200; fZ 150; fZ 200] [fZ 0; fZ 3; fZ 50]
           [dec 2 1000; dec 1 1000; dec 2 1000] [fZ 0; fZ 1; fZ 0]
           [fZ 0; fZ 20; fZ 40]); reflexivity.
Defined.

End CorrectedPlot.

(** ** Every 25th segment *)

Section Slices.
Context {A : Type}.

Lemma lookup_stride (k c : nat) (l : list A) (j : nat) :
  (0 < k)%nat → stride k c l !! j = l !! (c + j * k)%nat.
Proof.
  intros Hk. revert c j. induction l as [|x l IH]; intros c j; [done|].
  destruct c as [|c]; cbn [stride].
  - destruct j as [|j]; [done|].
    change ((x :: stride k (k - 1) l) !! S j) with (stride k (k - 1) l !! j).
    rewrite IH. replace (0 + S j * k)%nat with (S (k - 1 + j * k)) by lia. done.
  - rewrite IH. done.
Qed.

(** X22: The loop over the files reads the segments 0, 25, 50, ... of every
    dataset and leaves the last segment out. *)
Theorem every_25th (l : list A) (j : nat) :
  slice_list slice_0_m1_25 l !! j
  = if decide (25 * j < length l - 1)%nat then l !! (25 * j)%nat else None.
Proof.
  unfold slice_list, slice_0_m1_25, bound. cbn [start stop step].
  change (Pos.to_nat 25) with 25%nat.
  rewrite lookup_stride by lia.
  replace (Z.to_nat (Z.min (Z.max (if (0 <? 0)%Z then (0 + Z.of_nat (length l))%Z else 0%Z) 0)
                       (Z.of_nat (length l)))) with 0%nat by (cbn; lia).
  replace (Z.to_nat (Z.min (Z.max (if (-1 <? 0)%Z then (-1 + Z.of_nat (length l))%Z else (-1)%Z) 0)
                       (Z.of_nat (length l)))) with (length l - 1)%nat by (cbn; lia).
  rewrite drop_0, Nat.sub_0_r. replace (0 + j * 25)%nat with (25 * j)%nat by lia.
  case_decide as Hj.
  - by rewrite lookup_take_lt.
  - apply lookup_ge_None_2. rewrite length_take. lia.
Qed.

End Slices.
